(** * Benchmark report scripts: aggregation, best times and chart series

    A shallow embedding of the data handling of the plotting and report
    scripts under [assignment1/]:

    - [a/generate_report.py] and [a/plot_results.py] (csv + plain dicts),
    - [b/plot_best_time.py] and [b/plot_histograms.py] (pandas),
    - [d/plot_results.py] (pandas, text report).

    Python [int] is [Z], Python [float] (IEEE binary64) is [spec_float] with
    the comparisons of [SpecFloat], [str] is [string], a [dict] whose
    iteration order is never observed is a [gmap], a [set] is a [gset], a
    pandas frame is the list of its rows together with their index labels. *)

From Stdlib Require Import ZArith String Ascii SpecFloat Lia.
From stdpp Require Import base option list sorting gmap strings.

Open Scope Z_scope.

(** ** Python floats *)

Module PyFloat.

Abbreviation float := spec_float.

(** binary64 *)
Definition prec : Z := 53.
Definition emax : Z := 1024.

Definition is_nan (x : float) : bool :=
  match x with S754_nan => true | _ => false end.

(** [x < y] and [x <= y] of Python and numpy: false as soon as one side is
    NaN. *)
Definition ltb (x y : float) : bool := SFltb x y.
Definition leb (x y : float) : bool := SFleb x y.

Definition zero : float := S754_zero false.

(** [x > 0], the validity condition of an elapsed time. *)
Definition is_positive (x : float) : Prop := ltb zero x = true.

(** numpy arithmetic on float64 scalars: IEEE results, no exception. *)
Definition sub (x y : float) : float := SFsub prec emax x y.
Definition div (x y : float) : float := SFdiv prec emax x y.
Definition mul (x y : float) : float := SFmul prec emax x y.

Global Instance float_eq_dec : EqDecision float.
Proof. solve_decision. Defined.

End PyFloat.

Import PyFloat.

(** ** Order facts on floats *)

Section float_order.

Local Ltac cmp_cases :=
  repeat match goal with
    | s : bool |- _ => destruct s
    | |- context [Z.compare ?a ?b] => destruct (Z.compare_spec a b); subst
    | H : context [Z.compare ?a ?b] |- _ => destruct (Z.compare_spec a b); subst
    | |- context [Pos.compare_cont Eq ?a ?b] =>
        change (Pos.compare_cont Eq a b) with (Pos.compare a b);
        destruct (Pos.compare_spec a b); subst
    | H : context [Pos.compare_cont Eq ?a ?b] |- _ =>
        change (Pos.compare_cont Eq a b) with (Pos.compare a b) in H;
        destruct (Pos.compare_spec a b); subst
    end; simpl in *; try congruence; try lia.

Local Ltac float_cases :=
  unfold leb, ltb, SFleb, SFltb, SFcompare in *; cmp_cases.

Lemma ltb_leb x y : ltb x y = true → leb x y = true.
Proof. destruct x, y; float_cases. Qed.

Lemma ltb_nan_r x : ltb x S754_nan = false.
Proof. by destruct x. Qed.

Lemma ltb_nan_l x : ltb S754_nan x = false.
Proof. done. Qed.

Lemma leb_not_nan x y : leb x y = true → is_nan x = false ∧ is_nan y = false.
Proof. destruct x, y; float_cases; done. Qed.

Lemma leb_refl x : is_nan x = false → leb x x = true.
Proof. destruct x; float_cases. Qed.

Lemma ltb_irrefl x : ltb x x = false.
Proof. destruct x; float_cases. Qed.

Lemma ltb_false_leb x y :
  is_nan x = false → is_nan y = false → ltb x y = false → leb y x = true.
Proof. destruct x, y; float_cases. Qed.

Lemma leb_false_ltb x y :
  is_nan x = false → is_nan y = false → leb x y = false → ltb y x = true.
Proof. destruct x, y; float_cases. Qed.

Lemma ltb_asym x y : ltb x y = true → ltb y x = false.
Proof. destruct x, y; float_cases. Qed.

Lemma leb_ltb_false x y : leb x y = true → ltb y x = false.
Proof. destruct x, y; float_cases. Qed.

Lemma leb_trans x y z : leb x y = true → leb y z = true → leb x z = true.
Proof. destruct x, y, z; float_cases. Qed.

Lemma ltb_leb_trans x y z : ltb x y = true → leb y z = true → ltb x z = true.
Proof. destruct x, y, z; float_cases. Qed.

Lemma leb_total x y :
  is_nan x = false → is_nan y = false → leb x y = true ∨ leb y x = true.
Proof. destruct x, y; float_cases; auto. Qed.

Lemma positive_not_nan x : is_positive x → is_nan x = false.
Proof. unfold is_positive, zero. destruct x; float_cases. Qed.

(** Two positive floats that compare equal are the same float (only the
    two zeros compare equal without being identical). *)
Lemma leb_antisym_positive x y :
  is_positive x → is_positive y → leb x y = true → leb y x = true → x = y.
Proof. unfold is_positive, zero. destruct x, y; float_cases. Qed.

End float_order.

(** ** Python built-ins used by the scripts *)

Module Py.

Section sorted.
Context {A : Type} (R : relation A) `{!RelDecision R}.

(** [sorted] is a stable sort; on a total preorder every stable sort
    returns the same list, so insertion from the right stands for it. *)
Fixpoint insort (x : A) (l : list A) : list A :=
  match l with
  | [] => [x]
  | y :: l' => if decide (R x y) then x :: y :: l' else y :: insort x l'
  end.

Definition sorted (l : list A) : list A := foldr insort [] l.
End sorted.

(** [max(l)] on integers; raises [ValueError] on the empty list. *)
Definition max (l : list Z) : option Z :=
  match l with
  | [] => None
  | x :: l' => Some (foldl Z.max x l')
  end.

(** [sorted(list(set(xs)))] for integers and for strings. *)
Definition sorted_set_Z (xs : list Z) : list Z :=
  sorted Z.le (elements (list_to_set xs : gset Z)).

Definition sorted_set_str (xs : list string) : list string :=
  sorted String.le (elements (list_to_set xs : gset string)).

End Py.

(** ** [a/generate_report.py] and [a/plot_results.py]: the csv rows *)

Module Csv.


(** The row after [int(row['N'])], [int(row['threads'])],
    [float(row['sec'])]; [pattern] stays text. *)
Record row := Row {
  N : Z;
  threads : Z;
  sec : float;
  pattern : string
}.

Global Instance row_eq_dec : EqDecision row.
Proof. solve_decision. Defined.

Section load.
(** Python's [int] and [float] on text; [None] stands for the
    [ValueError] they raise. *)
Variable py_int : string → option Z.
Variable py_float : string → option float.


End load.

End Csv.

Import Csv.

Module GenerateReport.

(** [all_ns], [patterns], [thread_counts] *)
Definition all_ns (data : list row) : list Z :=
  Py.sorted_set_Z (N <$> data).

Definition patterns (data : list row) : list string :=
  Py.sorted_set_str (pattern <$> data).

Definition thread_counts (data : list row) : list Z :=
  Py.sorted_set_Z (threads <$> filter (λ d, 1 < threads d) data).

(** One pass of the loop body shared by [single_thread_data] ([t = 1])
    and [multi_thread_data[t]]:
    [if p not in d: d[p] = {}] then [d[p][row['N']] = row['sec']]. *)
Definition series_step (t : Z) (d : gmap string (gmap Z float)) (r : row)
  : gmap string (gmap Z float) :=
  if decide (threads r = t) then
    let p := pattern r in
    let d1 := match d !! p with None => <[p := ∅]> d | Some _ => d end in
    <[p := <[N r := sec r]> (default ∅ (d1 !! p))]> d1
  else d.

Definition series_of (t : Z) (data : list row) : gmap string (gmap Z float) :=
  foldl (series_step t) ∅ data.

Definition single_thread_data (data : list row) : gmap string (gmap Z float) :=
  series_of 1 data.

Definition multi_thread_data (data : list row)
  : gmap Z (gmap string (gmap Z float)) :=
  foldl (λ m t, <[t := series_of t data]> m) ∅ (thread_counts data).

(** [best_times]: the loop keeps a value only when it is strictly less
    than the stored one. *)
Definition best_step (n_target : Z) (b : gmap string float) (r : row)
  : gmap string float :=
  if decide (N r = n_target) then
    match b !! pattern r with
    | None => <[pattern r := sec r]> b
    | Some cur => if ltb (sec r) cur then <[pattern r := sec r]> b else b
    end
  else b.

Definition best_times_at (n_target : Z) (data : list row) : gmap string float :=
  foldl (best_step n_target) ∅ data.

Definition max_n (data : list row) : option Z := Py.max (all_ns data).

Definition best_times (data : list row) : option (gmap string float) :=
  n ← max_n data; Some (best_times_at n data).

(** Chart.js datasets *)
Record dataset := Dataset {
  label : string;
  data_pts : list (option float);
  borderColor : string
}.

Definition colors : list string :=
  ["rgb(255, 99, 132)"; "rgb(54, 162, 235)"; "rgb(255, 206, 86)";
   "rgb(75, 192, 192)"; "rgb(153, 102, 255)"; "rgb(255, 159, 64)"]%string.

Definition get_datasets (pats : list string) (ns : list Z)
    (source_data : gmap string (gmap Z float)) : list dataset :=
  mjoin (imap (λ i p,
    match source_data !! p with
    | Some d =>
        [Dataset p ((λ n, d !! n) <$> ns)
                 (nth (i mod length colors)%nat colors ""%string)]
    | None => []
    end) pats).

(** What the script hands to the page. *)
Record report := Report {
  r_ns : list Z;
  r_single : list dataset;
  r_multi : list (Z * list dataset);
  r_max_n : Z;
  r_best_labels : list string;
  r_best_values : list float
}.

Definition best_time_labels (b : gmap string float) : list string :=
  Py.sorted String.le (elements (dom b)).

(** [None] stands for the exception that stops the script: [ValueError]
    of [max] on no data, [KeyError] of a failed dict subscript. *)
Definition generate_report (data : list row) : option report :=
  let pats := patterns data in
  let ns := all_ns data in
  let multi := multi_thread_data data in
  n ← Py.max ns;
  let b := best_times_at n data in
  let labels := best_time_labels b in
  charts ← mapM (λ t, d ← multi !! t; Some (t, get_datasets pats ns d))
                (thread_counts data);
  values ← mapM (λ k, b !! k) labels;
  Some (Report ns (get_datasets pats ns (single_thread_data data))
               charts n labels values).

End GenerateReport.

Module PlotResultsA.

(** [data_by_thread[t][p]] is the list of [(n, s)] appended row by row. *)
Definition group_step (d : gmap Z (gmap string (list (Z * float)))) (r : row)
  : gmap Z (gmap string (list (Z * float))) :=
  let t := threads r in
  let p := pattern r in
  let d1 := match d !! t with None => <[t := ∅]> d | Some _ => d end in
  let dt := default ∅ (d1 !! t) in
  let dt1 := match dt !! p with None => <[p := []]> dt | Some _ => dt end in
  <[t := <[p := default [] (dt1 !! p) ++ [(N r, sec r)]]> dt1]> d1.

Definition data_by_thread (data : list row)
  : gmap Z (gmap string (list (Z * float))) :=
  foldl group_step ∅ data.

Definition patterns (data : list row) : gset string :=
  foldl (λ ps r, ps ∪ {[pattern r]}) ∅ data.

Definition sorted_patterns (data : list row) : list string :=
  Py.sorted String.le (elements (patterns data)).

(** All records of all groups, each with the keys of its group. *)
Definition flatten (d : gmap Z (gmap string (list (Z * float))))
  : list (Z * string * Z * float) :=
  '(t, dt) ← map_to_list d;
  '(p, l) ← map_to_list dt;
  (λ ns, (t, p, ns.1, ns.2)) <$> l.

Definition n_target : Z := 2048.

(** The loop of lines 82-87 has the body of the one in
    [generate_report.py], with [n_target] for [max_n]. *)
Definition best_times (data : list row) : gmap string float :=
  foldl (GenerateReport.best_step n_target) ∅ data.

(** The bar chart: [p_names] and [times], drawn only when [best_times]
    is not empty. *)
Definition best_time_chart (data : list row)
  : option (list string * list float) :=
  let b := best_times data in
  if decide (b = ∅) then None
  else
    let p_names := Py.sorted String.le (elements (dom b)) in
    times ← mapM (λ p, b !! p) p_names;
    Some (p_names, times).

End PlotResultsA.

(** ** pandas frames *)

Module Pandas.

(** A frame is the list of its rows, each with its index label. *)
Definition frame (R : Type) : Type := list (nat * R).

(** [pd.read_csv] and [ignore_index=True] number the rows from 0. *)
Definition reindex {R} (rows : list R) : frame R := imap (λ i r, (i, r)) rows.

(** [df[mask]] keeps the rows and their labels. *)
Definition select {R} (P : R → Prop) `{∀ r, Decision (P r)} (df : frame R)
  : frame R :=
  filter (λ ir, P ir.2) df.

(** [Series.unique()]: the distinct values in order of first appearance. *)
Fixpoint unique_go {A} `{EqDecision A} (seen : list A) (l : list A) : list A :=
  match l with
  | [] => []
  | x :: l' =>
      if decide (x ∈ seen) then unique_go seen l'
      else x :: unique_go (x :: seen) l'
  end.

Definition unique {A} `{EqDecision A} (l : list A) : list A := unique_go [] l.

(** [Series.idxmin()] with the default [skipna=True]: NaN entries are
    passed over, the label of the first occurrence of the minimum is
    returned; on a series with no number the call (or the [.loc] that
    follows it) raises. *)
Definition idxmin_step (best : option (nat * float)) (ix : nat * float)
  : option (nat * float) :=
  if is_nan ix.2 then best
  else match best with
       | None => Some ix
       | Some (j, y) => if ltb ix.2 y then Some ix else best
       end.

Definition idxmin (col : list (nat * float)) : option nat :=
  fst <$> foldl idxmin_step None col.

(** [g.loc[label]] on a frame: the row carrying the label. *)
Definition loc {R} (g : frame R) (label : nat) : option R :=
  snd <$> find (λ ir, bool_decide (ir.1 = label)) g.

(** [Series.min()] with [skipna=True]; NaN when no number is there. *)
Definition nanmin (col : list float) : float :=
  foldl (λ best x,
    if is_nan x then best
    else if is_nan best then x
    else if ltb x best then x else best) S754_nan col.

(** The order [sort_values] puts floats in: ascending, NaN last. *)
Definition float_le (x y : float) : Prop :=
  is_nan y = true ∨ leb x y = true.

Global Instance float_le_dec : RelDecision float_le.
Proof. intros x y. unfold float_le. apply _. Defined.

End Pandas.

(** ** [b/plot_best_time.py] *)

Module PlotBestTime.
Import Pandas.

(** The columns of [results.csv] and [results_optimized.csv] the script
    reads. *)
Record csv_row := CsvRow {
  c_N : Z;
  c_pattern : Z;
  c_sec : float
}.

(** The combined frame's rows, with the two added columns;
    [pattern_name = None] is the missing value [.map] leaves for a code
    that is not a key of [pattern_names]. *)
Record brow := BRow {
  b_N : Z;
  b_pattern : Z;
  b_sec : float;
  b_version : string;
  b_pattern_name : option string
}.

Definition pattern_names : gmap Z string :=
  list_to_map [(0, "row_major_rows_per_thread"); (1, "col_major");
               (2, "blocked_32"); (3, "linear_flat");
               (4, "cyclic_rows"); (5, "unroll4")]%string.

Definition Ns : list Z := [256; 512; 1024; 2048].

Definition tag (version : string) (r : csv_row) : brow :=
  BRow (c_N r) (c_pattern r) (c_sec r) version (pattern_names !! c_pattern r).

(** [pd.concat([df_base, df_opt], ignore_index=True)] with the added
    columns, then [df[df["N"].isin(Ns)]]. *)
Definition combined (df_base df_opt : list csv_row) : frame brow :=
  select (λ r, b_N r ∈ Ns)
    (reindex ((tag "unoptimized" <$> df_base) ++ (tag "optimized" <$> df_opt))).

(** Group keys of [groupby(["N", "pattern_name"])]: rows with a missing
    key are dropped, the keys come in ascending order. *)
Definition key_le (k1 k2 : Z * string) : Prop :=
  k1.1 < k2.1 ∨ (k1.1 = k2.1 ∧ String.le k1.2 k2.2).

Global Instance key_le_dec : RelDecision key_le.
Proof. intros k1 k2. unfold key_le. apply _. Defined.

Definition row_key (r : brow) : option (Z * string) :=
  name ← b_pattern_name r; Some (b_N r, name).

Definition group_keys (df : frame brow) : list (Z * string) :=
  Py.sorted key_le
    (elements (list_to_set (omap (λ ir, row_key ir.2) df) : gset (Z * string))).

Definition group (df : frame brow) (k : Z * string) : frame brow :=
  select (λ r, row_key r = Some k) df.

Record best_row := BestRow {
  o_N : Z;
  o_pattern_name : string;
  o_best_time_sec : float;
  o_best_version : string
}.

(** The body of the extraction loop for one group. *)
Definition best_of_group (k : Z * string) (g : frame brow) : option best_row :=
  best_idx ← idxmin ((λ ir, (ir.1, b_sec ir.2)) <$> g);
  r ← loc g best_idx;
  Some (BestRow k.1 k.2 (b_sec r) (b_version r)).

Definition extract (df : frame brow) : option (list best_row) :=
  mapM (λ k, best_of_group k (group df k)) (group_keys df).

(** [sort_values(["N", "best_time_sec"])]: a stable sort on the two
    columns. *)
Definition out_le (r1 r2 : best_row) : Prop :=
  o_N r1 < o_N r2 ∨
  (o_N r1 = o_N r2 ∧ float_le (o_best_time_sec r1) (o_best_time_sec r2)).

Global Instance out_le_dec : RelDecision out_le.
Proof. intros r1 r2. unfold out_le. apply _. Defined.

(** [None] is an exception: a group without a number, or [sort_values]
    raising [KeyError] on the frame built from no row. *)
Definition best_times (df_base df_opt : list csv_row) : option (list best_row) :=
  rows ← extract (combined df_base df_opt);
  match rows with
  | [] => None
  | _ => Some (Py.sorted out_le rows)
  end.

End PlotBestTime.

(** ** [b/plot_histograms.py] *)

Module PlotHistograms.
Import Pandas.

Definition patterns : list string :=
  Py.sorted String.le (snd <$> map_to_list PlotBestTime.pattern_names).






End PlotHistograms.

(** ** [d/plot_results.py] *)

Module PlotResultsD.
Import Pandas.

Record drow := DRow {
  Method : string;
  MatrixSize : Z;
  Threads : Z;
  TimeSeconds : float;
  Speedup : float;
  Efficiency : float;
  GFLOPS : float
}.

Definition load_data (rows : list drow) : frame drow := reindex rows.

(** [df['Method'].unique()] *)
Definition methods (df : frame drow) : list string :=
  unique ((λ ir, Method ir.2) <$> df).

(** [plot_time_comparison], left panel: for each method the series
    [method_data.groupby('MatrixSize')['TimeSeconds'].min()], indexed by
    the sizes in ascending order. *)
Definition best_time_curve (df : frame drow) (method : string)
  : list (Z * float) :=
  let method_data := select (λ r, Method r = method) df in
  (λ n, (n, nanmin ((λ ir, TimeSeconds ir.2)
                      <$> select (λ r, MatrixSize r = n) method_data)))
  <$> Py.sorted_set_Z ((λ ir, MatrixSize ir.2) <$> method_data).

(** The curves drawn on the left panel, one per method, in the order of
    [methods]. *)
Definition plot_time_comparison (df : frame drow)
  : list (string * list (Z * float)) :=
  (λ m, (m, best_time_curve df m)) <$> methods df.

(** [int] to [float64], as numpy does when the two meet in an
    operation. *)
Definition of_Z (z : Z) : float := binary_normalize prec emax z 0 false.

Inductive exn := IndexError.

(** The lines [generate_text_report] writes per method, one kind per
    section of the report. *)
Inductive entry :=
| TimeLine (method : string) (t1 tn improvement : float)
| SpeedupLine (method : string) (speedup vs_ideal : float)
| EfficiencyLine (method : string) (eff : float)
| GflopsLine (method : string) (gflops : float).

(** [series.values[0]] *)
Definition values0 (col : list float) : exn + float :=
  match col with
  | [] => inl IndexError
  | x :: _ => inr x
  end.

Definition column (f : drow → float) (P : drow → Prop) `{∀ r, Decision (P r)}
    (df : frame drow) : list float :=
  (λ ir, f ir.2) <$> select P df.

(** A [for method in methods] loop writing one line per turn; an
    exception leaves what was written and ends the run. *)
Fixpoint write_each (f : string → exn + entry) (ms : list string)
  : list entry * option exn :=
  match ms with
  | [] => ([], None)
  | m :: ms' =>
      match f m with
      | inl e => ([], Some e)
      | inr ln => let '(out, r) := write_each f ms' in (ln :: out, r)
      end
  end.

Definition and_then (a b : list entry * option exn) : list entry * option exn :=
  match a.2 with
  | Some e => a
  | None => (a.1 ++ b.1, b.2)
  end.

Section report.
Variable subset : frame drow.
Variable max_threads : Z.

Definition time_line (method : string) : exn + entry :=
  match values0 (column TimeSeconds
                   (λ r, Method r = method ∧ Threads r = 1) subset) with
  | inl e => inl e
  | inr t1 =>
      match values0 (column TimeSeconds
                       (λ r, Method r = method ∧ Threads r = max_threads)
                       subset) with
      | inl e => inl e
      | inr tn =>
          inr (TimeLine method t1 tn (mul (div (sub t1 tn) t1) (of_Z 100)))
      end
  end.

Definition at_max (f : drow → float) (method : string) : exn + float :=
  values0 (column f (λ r, Method r = method ∧ Threads r = max_threads) subset).

Definition speedup_line (method : string) : exn + entry :=
  match at_max Speedup method with
  | inl e => inl e
  | inr speedup =>
      inr (SpeedupLine method speedup
             (mul (div speedup (of_Z max_threads)) (of_Z 100)))
  end.

Definition efficiency_line (method : string) : exn + entry :=
  match at_max Efficiency method with
  | inl e => inl e
  | inr eff => inr (EfficiencyLine method eff)
  end.

Definition gflops_line (method : string) : exn + entry :=
  match at_max GFLOPS method with
  | inl e => inl e
  | inr gflops => inr (GflopsLine method gflops)
  end.
End report.

(** The written lines and the exception that ended the run, if any.  On
    an empty frame the two maxima are NaN and there is no method: nothing
    is written. *)
Definition generate_text_report (df : frame drow) : list entry * option exn :=
  match Py.max ((λ ir, MatrixSize ir.2) <$> df),
        Py.max ((λ ir, Threads ir.2) <$> df) with
  | Some largest_size, Some max_threads =>
      let ms := methods df in
      let subset := select (λ r, MatrixSize r = largest_size) df in
      and_then (write_each (time_line subset max_threads) ms)
        (and_then (write_each (speedup_line subset max_threads) ms)
           (and_then (write_each (efficiency_line subset max_threads) ms)
              (write_each (gflops_line subset max_threads) ms)))
  | _, _ => ([], None)
  end.

End PlotResultsD.

(** ** Facts on [sorted] *)

Section sorted_facts.
Context {A : Type} (R : relation A) `{!RelDecision R}.

Lemma insort_Permutation x l : Py.insort R x l ≡ₚ x :: l.
Proof.
  induction l as [|y l IH]; simpl; [done|].
  case_decide; [done|]. by rewrite IH, Permutation_swap.
Qed.

Lemma sorted_Permutation l : Py.sorted R l ≡ₚ l.
Proof.
  induction l as [|x l IH]; simpl; [done|].
  by rewrite insort_Permutation, IH.
Qed.

Lemma elem_of_sorted x l : x ∈ Py.sorted R l ↔ x ∈ l.
Proof. by rewrite sorted_Permutation. Qed.

Lemma NoDup_sorted l : NoDup l → NoDup (Py.sorted R l).
Proof. by rewrite sorted_Permutation. Qed.

Lemma length_sorted l : length (Py.sorted R l) = length l.
Proof. by rewrite sorted_Permutation. Qed.

Context `{!Total R}.

Lemma Sorted_insort x l : Sorted R l → Sorted R (Py.insort R x l).
Proof.
  induction 1 as [|y l Hl IH Hhd]; simpl; [by repeat constructor|].
  case_decide as Hxy.
  - by repeat constructor.
  - constructor; [done|].
    assert (R y x) by (by destruct (total R x y)).
    destruct Hhd as [|z l']; simpl; [by constructor|].
    case_decide; by constructor.
Qed.

Lemma Sorted_sorted l : Sorted R (Py.sorted R l).
Proof. induction l; simpl; [constructor|by apply Sorted_insort]. Qed.

(** The result depends on the elements only, not on their order, when
    the order has no distinct equivalent elements. *)
Lemma sorted_perm_eq `{!Transitive R, !AntiSymm (=) R} l1 l2 :
  l1 ≡ₚ l2 → Py.sorted R l1 = Py.sorted R l2.
Proof.
  intros Hp. apply (Sorted_unique R); [apply Sorted_sorted..|].
  by rewrite !sorted_Permutation.
Qed.

End sorted_facts.

Section sorted_set_facts.

Lemma elem_of_sorted_set_Z x xs : x ∈ Py.sorted_set_Z xs ↔ x ∈ xs.
Proof. unfold Py.sorted_set_Z. rewrite elem_of_sorted. set_solver. Qed.

Lemma NoDup_sorted_set_Z xs : NoDup (Py.sorted_set_Z xs).
Proof. apply NoDup_sorted, NoDup_elements. Qed.

Lemma Sorted_sorted_set_Z xs : Sorted Z.le (Py.sorted_set_Z xs).
Proof. apply Sorted_sorted, _. Qed.

Lemma sorted_set_Z_ext xs ys :
  (∀ x, x ∈ xs ↔ x ∈ ys) → Py.sorted_set_Z xs = Py.sorted_set_Z ys.
Proof.
  intros H. unfold Py.sorted_set_Z.
  assert ((list_to_set xs : gset Z) = list_to_set ys) as -> by set_solver.
  done.
Qed.

Lemma elem_of_sorted_set_str x xs : x ∈ Py.sorted_set_str xs ↔ x ∈ xs.
Proof. unfold Py.sorted_set_str. rewrite elem_of_sorted. set_solver. Qed.

Lemma NoDup_sorted_set_str xs : NoDup (Py.sorted_set_str xs).
Proof. apply NoDup_sorted, NoDup_elements. Qed.

Lemma Sorted_sorted_set_str xs : Sorted String.le (Py.sorted_set_str xs).
Proof. apply Sorted_sorted, _. Qed.

Lemma sorted_set_str_ext xs ys :
  (∀ x, x ∈ xs ↔ x ∈ ys) → Py.sorted_set_str xs = Py.sorted_set_str ys.
Proof.
  intros H. unfold Py.sorted_set_str.
  assert ((list_to_set xs : gset string) = list_to_set ys) as -> by set_solver.
  done.
Qed.

(** [max] of a non-empty list is one of its elements and bounds them. *)
Lemma foldl_max_spec x l :
  (foldl Z.max x l ∈ x :: l) ∧ ∀ y, y ∈ x :: l → y ≤ foldl Z.max x l.
Proof.
  revert x. induction l as [|z l IH]; intros x; simpl.
  - split; [set_solver|]. intros y Hy. apply list_elem_of_singleton in Hy. lia.
  - destruct (IH (Z.max x z)) as [Hin Hle]. split.
    + apply elem_of_cons in Hin as [Hin|Hin]; [|set_solver].
      rewrite Hin. destruct (Z.max_spec x z) as [[_ ->]|[_ ->]]; set_solver.
    + intros y Hy.
      assert (y = x ∨ y = z ∨ y ∈ l) as [->|[->|Hl]] by set_solver.
      * specialize (Hle (Z.max x z)). etrans; [|apply Hle; set_solver]. lia.
      * specialize (Hle (Z.max x z)). etrans; [|apply Hle; set_solver]. lia.
      * apply Hle. set_solver.
Qed.

Lemma max_spec l n :
  Py.max l = Some n ↔ n ∈ l ∧ ∀ y, y ∈ l → y ≤ n.
Proof.
  destruct l as [|x l]; simpl.
  - split; [done|]. intros [H _]. by apply elem_of_nil in H.
  - destruct (foldl_max_spec x l) as [Hin Hle]. split.
    + intros [= <-]. done.
    + intros [Hn Hb]. f_equal. apply Z.le_antisymm; [by apply Hb|by apply Hle].
Qed.

Lemma max_None l : Py.max l = None ↔ l = [].
Proof. by destruct l. Qed.

End sorted_set_facts.

(** ** The running minimum kept by the best-time loops *)

Section running_min.
Context {A : Type}.

(** The update both loops make: the candidate replaces the stored pair
    only when its value is strictly less. *)
Definition min_step (best : option (A * float)) (ix : A * float)
  : option (A * float) :=
  match best with
  | None => Some ix
  | Some (j, y) => if ltb ix.2 y then Some ix else best
  end.

Definition first_min (l : list (A * float)) : option (A * float) :=
  foldl min_step None l.

Lemma first_min_snoc l x : first_min (l ++ [x]) = min_step (first_min l) x.
Proof. unfold first_min. by rewrite foldl_app. Qed.

Lemma first_min_None l : first_min l = None ↔ l = [].
Proof.
  split; [|by intros ->].
  destruct l as [|x l _] using rev_ind; [done|].
  rewrite first_min_snoc. unfold min_step.
  destruct (first_min l) as [[j y]|]; [|done]. by case_match.
Qed.

(** The pair kept is an element of the list, strictly below everything
    before it and at most everything after it: the first occurrence of
    the minimum. *)
Lemma first_min_Some l a v :
  Forall (λ x, is_nan x.2 = false) l →
  first_min l = Some (a, v) →
  ∃ l1 l2, l = l1 ++ (a, v) :: l2 ∧
    Forall (λ x, ltb v x.2 = true) l1 ∧
    Forall (λ x, leb v x.2 = true) l2.
Proof.
  revert a v. induction l as [|x l IH] using rev_ind; intros a v Hnan; [done|].
  apply Forall_app in Hnan as [Hnan Hx]. rewrite Forall_singleton in Hx.
  rewrite first_min_snoc. unfold min_step.
  destruct (first_min l) as [[j y]|] eqn:Hl.
  - destruct (IH j y Hnan eq_refl) as (l1 & l2 & -> & H1 & H2).
    assert (is_nan y = false) as Hy.
    { apply Forall_app in Hnan as [_ Hc]. by apply Forall_cons in Hc as [Hc _]. }
    destruct (ltb x.2 y) eqn:Hlt; intros Heq; simplify_eq/=.
    + exists (l1 ++ (j, y) :: l2), []. split_and!; [done| |done].
      apply Forall_app. split; [|apply Forall_cons; split]; [|done|].
      * eapply Forall_impl; [exact H1|]. intros z Hz. simpl in Hz.
        eapply ltb_leb_trans; [done|by apply ltb_leb].
      * eapply Forall_impl; [exact H2|]. intros z Hz. simpl in Hz.
        by eapply ltb_leb_trans.
    + exists l1, (l2 ++ [x]). split_and!; [by rewrite <-app_assoc|done|].
      apply Forall_app. split; [done|]. apply Forall_singleton.
      by apply ltb_false_leb.
  - apply first_min_None in Hl as ->. intros [= ->].
    by exists [], [].
Qed.

Lemma first_min_elem_of l a v : first_min l = Some (a, v) → (a, v) ∈ l.
Proof.
  revert a v. induction l as [|x l IH] using rev_ind; intros a v; [done|].
  rewrite first_min_snoc. unfold min_step.
  destruct (first_min l) as [[j y]|] eqn:Hl.
  - case_match; intros [= <-]; set_solver.
  - intros [= <-]. set_solver.
Qed.

Lemma first_min_le l a v :
  Forall (λ x, is_nan x.2 = false) l →
  first_min l = Some (a, v) → Forall (λ x, leb v x.2 = true) l.
Proof.
  intros Hnan Hl.
  destruct (first_min_Some l a v Hnan Hl) as (l1 & l2 & -> & H1 & H2).
  apply Forall_app. split; [|apply Forall_cons; split; [|done]].
  - eapply Forall_impl; [exact H1|]. intros z Hz. by apply ltb_leb.
  - simpl. apply leb_refl.
    apply Forall_app in Hnan as [_ Hc]. by apply Forall_cons in Hc as [Hc _].
Qed.

End running_min.

(** ** Facts on the best-time loop of the [a/] scripts *)

Section best_loop_facts.
Import GenerateReport.

(** The records a pattern's best time at size [n] is taken from. *)
Definition best_group (n : Z) (p : string) (data : list row) : list row :=
  filter (λ r, N r = n ∧ pattern r = p) data.

Definition with_sec (g : list row) : list (row * float) :=
  (λ r, (r, sec r)) <$> g.

Lemma best_times_at_snoc n data r :
  best_times_at n (data ++ [r]) = best_step n (best_times_at n data) r.
Proof. unfold best_times_at. by rewrite foldl_app. Qed.

Lemma best_group_snoc n p data r :
  best_group n p (data ++ [r]) =
    best_group n p data ++ (if decide (N r = n ∧ pattern r = p) then [r] else []).
Proof.
  unfold best_group. by rewrite filter_app.
Qed.

(** The stored value of a pattern is the value of the running minimum
    over the pattern's records at the target size, in input order. *)
Lemma best_times_at_lookup n p data :
  best_times_at n data !! p = snd <$> first_min (with_sec (best_group n p data)).
Proof.
  induction data as [|r data IH] using rev_ind; [done|].
  rewrite best_times_at_snoc, best_group_snoc. unfold best_step, with_sec.
  case_decide as Hn.
  - destruct (decide (pattern r = p)) as [Hp|Hp].
    + rewrite decide_True by done. rewrite fmap_app. simpl. rewrite first_min_snoc. simpl.
      subst p. rewrite IH. unfold with_sec.
      destruct (first_min _) as [[j y]|]; simpl.
      * destruct (ltb (sec r) y); simpl.
        -- by rewrite lookup_insert_eq.
        -- by rewrite IH.
      * by rewrite lookup_insert_eq.
    + rewrite decide_False by naive_solver. rewrite app_nil_r.
      destruct (best_times_at n data !! pattern r) as [cur|];
        [destruct (ltb (sec r) cur)|]; rewrite ?lookup_insert_ne by done; done.
  - rewrite decide_False by naive_solver. by rewrite app_nil_r.
Qed.

Lemma elem_of_best_group n p data r :
  r ∈ best_group n p data ↔ r ∈ data ∧ N r = n ∧ pattern r = p.
Proof. unfold best_group. rewrite list_elem_of_filter. naive_solver. Qed.

(** Only the records at the target size matter. *)
Lemma best_times_at_filter n data :
  best_times_at n data = best_times_at n (filter (λ r, N r = n) data).
Proof.
  apply map_eq. intros p. rewrite !best_times_at_lookup. do 3 f_equal.
  unfold best_group. rewrite list_filter_filter. apply list_filter_iff.
  naive_solver.
Qed.

End best_loop_facts.

(** ** Facts on frames *)

Section frame_facts.
Import Pandas.
Context {R : Type}.
Implicit Types (df g : frame R).

Lemma reindex_labels (rows : list R) : (reindex rows).*1 = seq 0 (length rows).
Proof.
  unfold reindex. rewrite fmap_imap.
  change (imap (λ i _, id i) rows = seq 0 (length rows)).
  by rewrite imap_seq_0, list_fmap_id.
Qed.

Lemma reindex_rows (rows : list R) : (reindex rows).*2 = rows.
Proof.
  unfold reindex. rewrite fmap_imap.
  change (imap (const id) rows = rows).
  by rewrite imap_const, list_fmap_id.
Qed.

Lemma NoDup_reindex (rows : list R) : NoDup (reindex rows).*1.
Proof. rewrite reindex_labels. apply NoDup_seq. Qed.

Lemma NoDup_select (P : R → Prop) `{∀ r, Decision (P r)} df :
  NoDup df.*1 → NoDup (select P df).*1.
Proof.
  intros Hnd. apply (sublist_NoDup _ df.*1); [done|].
  apply fmap_sublist, sublist_filter.
Qed.

Lemma elem_of_select (P : R → Prop) `{∀ r, Decision (P r)} df ir :
  ir ∈ select P df ↔ P ir.2 ∧ ir ∈ df.
Proof. unfold select. by rewrite list_elem_of_filter. Qed.

(** With distinct labels, [.loc] returns the row that carries the
    label. *)
Lemma loc_Some g label r :
  NoDup g.*1 → (label, r) ∈ g → loc g label = Some r.
Proof.
  unfold loc. induction g as [|[i r'] g IH]; simpl; intros Hnd Hin.
  - by apply elem_of_nil in Hin.
  - apply NoDup_cons in Hnd as [Hi Hnd].
    case_bool_decide as Hl; simpl in *.
    + subst i. apply elem_of_cons in Hin as [[= ->]|Hin]; [done|].
      destruct Hi. apply list_elem_of_fmap. by exists (label, r).
    + apply elem_of_cons in Hin as [[= -> ->]|Hin]; [done|]. by apply IH.
Qed.

Lemma loc_elem_of g label r : loc g label = Some r → (label, r) ∈ g.
Proof.
  unfold loc. induction g as [|[i r'] g IH]; simpl; [done|].
  case_bool_decide as Hl; simpl in *.
  - intros [= ->]. subst. set_solver.
  - intros ?. set_solver.
Qed.

(** [idxmin] is the running minimum over the entries that are numbers. *)
Lemma idxmin_filter (col : list (nat * float)) :
  idxmin col = fst <$> first_min (filter (λ ix, is_nan ix.2 = false) col).
Proof.
  unfold idxmin, first_min. f_equal. generalize (@None (nat * float)).
  induction col as [|ix col IH]; intros b; [done|].
  rewrite filter_cons. simpl. rewrite IH. unfold idxmin_step.
  destruct (is_nan ix.2) eqn:Hn.
  - by rewrite decide_False by done.
  - by rewrite decide_True by done.
Qed.


End frame_facts.

(** ** Facts on [b/plot_best_time.py] *)

Section plot_best_time_facts.
Import Pandas PlotBestTime.

Definition no_nan (df : list csv_row) : Prop :=
  Forall (λ r, is_nan (c_sec r) = false) df.

Lemma NoDup_combined df_base df_opt : NoDup (combined df_base df_opt).*1.
Proof. apply NoDup_select, NoDup_reindex. Qed.

Lemma NoDup_group df k : NoDup df.*1 → NoDup (group df k).*1.
Proof. apply NoDup_select. Qed.

Lemma combined_rows df_base df_opt ir :
  ir ∈ combined df_base df_opt →
  b_N ir.2 ∈ Ns ∧
  ((∃ c, c ∈ df_base ∧ ir.2 = tag "unoptimized" c) ∨
   (∃ c, c ∈ df_opt ∧ ir.2 = tag "optimized" c)).
Proof.
  unfold combined. rewrite elem_of_select. intros [HN Hin]. split; [done|].
  assert (ir.2 ∈ (reindex ((tag "unoptimized" <$> df_base)
                            ++ (tag "optimized" <$> df_opt))).*2) as Hr.
  { apply list_elem_of_fmap. by exists ir. }
  rewrite reindex_rows, elem_of_app, !list_elem_of_fmap in Hr. naive_solver.
Qed.



Lemma elem_of_group df k ir :
  ir ∈ group df k ↔ ir ∈ df ∧ b_N ir.2 = k.1 ∧ b_pattern_name ir.2 = Some k.2.
Proof.
  unfold group. rewrite elem_of_select. unfold row_key.
  destruct k as [n p], (b_pattern_name ir.2); simpl; naive_solver.
Qed.

Lemma extract_elem_of df rows o :
  extract df = Some rows → o ∈ rows →
  ∃ k, k ∈ group_keys df ∧ best_of_group k (group df k) = Some o.
Proof.
  unfold extract. intros HF%mapM_Some Ho.
  induction HF as [|k o' ks rows Hk HF IH]; [by apply elem_of_nil in Ho|].
  apply elem_of_cons in Ho as [->|Ho]; [exists k; set_solver|].
  destruct (IH Ho) as (k' & ? & ?). exists k'. set_solver.
Qed.


Lemma best_times_rows df_base df_opt out :
  best_times df_base df_opt = Some out →
  ∃ rows, extract (combined df_base df_opt) = Some rows ∧ rows ≠ [] ∧
          out = Py.sorted out_le rows.
Proof.
  unfold best_times. destruct (extract _) as [rows|]; simpl; [|done].
  destruct rows; [done|]. intros [= <-]. eauto.
Qed.

End plot_best_time_facts.

(** ** Minimality and membership of the best time *)

Section best_time_claims.
Import Pandas.

Lemma with_sec_no_nan g :
  Forall (λ r, is_nan (sec r) = false) g →
  Forall (λ x : row * float, is_nan x.2 = false) (with_sec g).
Proof. intros H. unfold with_sec. by rewrite Forall_fmap. Qed.

Lemma best_group_no_nan n p data :
  Forall (λ r, is_nan (sec r) = false) data →
  Forall (λ r, is_nan (sec r) = false) (best_group n p data).
Proof.
  rewrite !Forall_forall. intros H r Hr%elem_of_best_group.
  apply H, Hr.
Qed.

(** What the loop of the [a/] scripts stores for a pattern, at any target
    size: the time of the first record of the group attaining the
    minimum. *)
Lemma best_times_at_first n p v data :
  Forall (λ r, is_nan (sec r) = false) data →
  GenerateReport.best_times_at n data !! p = Some v →
  ∃ g1 r g2, best_group n p data = g1 ++ r :: g2 ∧ sec r = v ∧
    Forall (λ r', ltb v (sec r') = true) g1 ∧
    Forall (λ r', leb v (sec r') = true) g2.
Proof.
  intros Hnan. rewrite best_times_at_lookup.
  destruct (first_min _) as [[r v']|] eqn:Hmin; simpl; [|done]. intros [= ->].
  apply first_min_Some in Hmin as (c1 & c2 & Hcol & H1 & H2);
    [|by apply with_sec_no_nan, best_group_no_nan].
  unfold with_sec in Hcol.
  apply fmap_app_inv in Hcol as (g1 & g' & -> & Hg' & Hg).
  symmetry in Hg'. apply fmap_cons_inv in Hg' as (r' & g2 & [= -> ->] & -> & ->).
  exists g1, r', g2. split_and!; [done..| |].
  - by rewrite Forall_fmap in H1.
  - by rewrite Forall_fmap in H2.
Qed.

Lemma best_times_at_min n p v data :
  Forall (λ r, is_nan (sec r) = false) data →
  GenerateReport.best_times_at n data !! p = Some v →
  (∃ r, r ∈ data ∧ N r = n ∧ pattern r = p ∧ sec r = v) ∧
  (∀ r, r ∈ data → N r = n → pattern r = p → leb v (sec r) = true).
Proof.
  intros Hnan Hv.
  destruct (best_times_at_first n p v data Hnan Hv) as (g1 & r & g2 & Hg & Hr & H1 & H2).
  assert (r ∈ best_group n p data) as Hin by (rewrite Hg; set_solver).
  split.
  - exists r. apply elem_of_best_group in Hin. naive_solver.
  - intros r' Hr' Hn Hp.
    assert (r' ∈ best_group n p data) as Hin' by (by apply elem_of_best_group).
    rewrite Hg in Hin'. rewrite Forall_forall in H1, H2.
    apply elem_of_app in Hin' as [?|[->|?]%elem_of_cons]; [by apply ltb_leb, H1| |by apply H2].
    subst v. apply leb_refl.
    apply elem_of_best_group in Hin as [Hin _].
    rewrite Forall_forall in Hnan. by apply Hnan.
Qed.

Lemma best_times_at_is_Some n p data :
  is_Some (GenerateReport.best_times_at n data !! p) ↔
  ∃ r, r ∈ data ∧ N r = n ∧ pattern r = p.
Proof.
  rewrite best_times_at_lookup, fmap_is_Some, <-not_eq_None_Some, first_min_None.
  unfold with_sec. split.
  - intros Hne. destruct (best_group n p data) as [|r g] eqn:Hg; [done|].
    exists r. apply elem_of_best_group. rewrite Hg. set_solver.
  - intros (r & Hr) Hg%fmap_nil_inv. apply elem_of_best_group in Hr.
    rewrite Hg in Hr. by apply elem_of_nil in Hr.
Qed.


End best_time_claims.

Section best_time_total.
Import Pandas PlotBestTime.




End best_time_total.

Section claim_best_time.
Import Pandas PlotBestTime.


End claim_best_time.

(** ** Sample inputs *)

Module Samples.
Import PlotBestTime.

(** 0.5, 1.0 and 2.0 as binary64 *)
Definition f0_5 : float := S754_finite false 4503599627370496 (-53).
Definition f1_0 : float := S754_finite false 4503599627370496 (-52).
Definition f2_0 : float := S754_finite false 4503599627370496 (-51).

Definition rows_a : list row :=
  [Row 256 1 f2_0 "row"; Row 256 2 f1_0 "row";
   Row 512 1 f1_0 "col"; Row 512 2 f0_5 "col"; Row 512 4 f0_5 "col"]%string.

Definition base_b : list csv_row :=
  [CsvRow 256 0 f0_5; CsvRow 256 1 f2_0; CsvRow 512 1 f1_0].

Definition opt_b : list csv_row :=
  [CsvRow 256 0 f0_5; CsvRow 256 1 f1_0; CsvRow 512 1 f1_0].

End Samples.

Section claim_best_time_witness.
Import Pandas PlotBestTime Samples.


End claim_best_time_witness.

Section claim_first_of_ties.
Import Pandas PlotBestTime Samples.



End claim_first_of_ties.

Section claim_single_size.

(** C10. The best times of the [a/] scripts are taken from the records of
    one size only: in [generate_report.py] the records at the largest
    size present, in [plot_results.py] the records at size 2048.  Removing
    all other records from the input leaves the table and the chart as
    they are. *)
Theorem best_times_single_size (data : list row) :
  (∀ n, GenerateReport.max_n data = Some n ↔
        (∃ r, r ∈ data ∧ N r = n) ∧ ∀ r, r ∈ data → N r ≤ n) ∧
  GenerateReport.best_times data =
    (n ← GenerateReport.max_n data;
     Some (GenerateReport.best_times_at n (filter (λ r, N r = n) data))) ∧
  PlotResultsA.best_times data =
    PlotResultsA.best_times (filter (λ r, N r = 2048) data) ∧
  PlotResultsA.best_time_chart data =
    PlotResultsA.best_time_chart (filter (λ r, N r = 2048) data).
Proof.
  assert (PlotResultsA.best_times data =
          PlotResultsA.best_times (filter (λ r, N r = 2048) data)) as HA.
  { apply (best_times_at_filter 2048). }
  split_and!.
  - intros n. unfold GenerateReport.max_n, GenerateReport.all_ns.
    rewrite max_spec. setoid_rewrite elem_of_sorted_set_Z.
    setoid_rewrite list_elem_of_fmap. naive_solver.
  - unfold GenerateReport.best_times.
    destruct (GenerateReport.max_n data) as [n|]; simpl; [|done].
    f_equal. apply best_times_at_filter.
  - done.
  - unfold PlotResultsA.best_time_chart. by rewrite <-HA.
Qed.

End claim_single_size.

(** ** Flattening a dict of groups *)

Section map_bind.
Context `{Countable K} {V B : Type} (f : K * V → list B).

Lemma map_bind_insert (m : gmap K V) k v :
  map_to_list (<[k:=v]> m) ≫= f ≡ₚ f (k, v) ++ (map_to_list (delete k m) ≫= f).
Proof.
  rewrite <-insert_delete_eq.
  rewrite map_to_list_insert by apply lookup_delete_eq.
  by rewrite bind_cons.
Qed.

Lemma map_bind_lookup (m : gmap K V) k v :
  m !! k = Some v →
  map_to_list m ≫= f ≡ₚ f (k, v) ++ (map_to_list (delete k m) ≫= f).
Proof.
  intros Hk. rewrite <-(map_to_list_delete m k v) by done.
  by rewrite bind_cons.
Qed.

(** Replacing the value under [k] by one whose image has [extra] more
    adds [extra] to the flattened map. *)
Lemma map_bind_update (m : gmap K V) k v extra :
  f (k, v) ≡ₚ from_option (λ v0, f (k, v0)) [] (m !! k) ++ extra →
  map_to_list (<[k:=v]> m) ≫= f ≡ₚ (map_to_list m ≫= f) ++ extra.
Proof.
  intros Hf. rewrite map_bind_insert, Hf.
  destruct (m !! k) as [v0|] eqn:Hk; simpl.
  - rewrite (map_bind_lookup m k v0) by done.
    rewrite <-!app_assoc. f_equiv. apply Permutation_app_comm.
  - rewrite delete_id by done. apply Permutation_app_comm.
Qed.

End map_bind.

(** ** Facts on [a/plot_results.py]: [data_by_thread] *)

Section data_by_thread_facts.
Import PlotResultsA.

Definition record_of (r : row) : Z * string * Z * float :=
  (threads r, pattern r, N r, sec r).

Definition flatten_pattern (t : Z) (pl : string * list (Z * float))
  : list (Z * string * Z * float) :=
  (λ ns, (t, pl.1, ns.1, ns.2)) <$> pl.2.

Definition flatten_thread (tdt : Z * gmap string (list (Z * float)))
  : list (Z * string * Z * float) :=
  map_to_list tdt.2 ≫= flatten_pattern tdt.1.

Lemma flatten_unfold d : flatten d = map_to_list d ≫= flatten_thread.
Proof.
  unfold flatten. apply list_bind_ext; [|done]. intros [t dt].
  unfold flatten_thread. apply list_bind_ext; [|done]. by intros [p l].
Qed.

(** The loop body in one assignment. *)
Lemma group_step_eq d r :
  group_step d r =
    let dt := default ∅ (d !! threads r) in
    <[threads r := <[pattern r := default [] (dt !! pattern r) ++ [(N r, sec r)]]> dt]> d.
Proof.
  unfold group_step. simpl.
  destruct (d !! threads r) as [dt|] eqn:Ht; simpl.
  - rewrite Ht. simpl.
    destruct (dt !! pattern r) as [l|] eqn:Hp; simpl.
    + by rewrite Hp.
    + rewrite lookup_insert_eq. simpl. by rewrite insert_insert_eq.
  - rewrite lookup_insert_eq. simpl.
    rewrite !lookup_empty. simpl. rewrite lookup_insert_eq. simpl.
    by rewrite !insert_insert_eq.
Qed.

Lemma flatten_group_step d r :
  flatten (group_step d r) ≡ₚ flatten d ++ [record_of r].
Proof.
  rewrite group_step_eq, !flatten_unfold. simpl.
  apply map_bind_update. unfold flatten_thread at 1. simpl.
  destruct (d !! threads r) as [dt|] eqn:Ht; simpl.
  - unfold flatten_thread. simpl.
    apply (map_bind_update (flatten_pattern (threads r))).
    unfold flatten_pattern. simpl.
    destruct (dt !! pattern r) as [l|]; simpl.
    + by rewrite fmap_app.
    + done.
  - rewrite lookup_empty. simpl.
    rewrite insert_empty, map_to_list_singleton. simpl. done.
Qed.

Lemma data_by_thread_snoc data r :
  data_by_thread (data ++ [r]) = group_step (data_by_thread data) r.
Proof. unfold data_by_thread. by rewrite foldl_app. Qed.

(** Flattening the groups gives back the records, each once. *)
Lemma flatten_data_by_thread data :
  flatten (data_by_thread data) ≡ₚ record_of <$> data.
Proof.
  induction data as [|r data IH] using rev_ind.
  - unfold data_by_thread, flatten. simpl. by rewrite map_to_list_empty.
  - by rewrite data_by_thread_snoc, flatten_group_step, IH, fmap_app.
Qed.

Definition lookup2 (d : gmap Z (gmap string (list (Z * float))))
    (t : Z) (p : string) : option (list (Z * float)) :=
  dt ← d !! t; dt !! p.

Lemma lookup2_group_step d r t p :
  lookup2 (group_step d r) t p =
    if decide (threads r = t ∧ pattern r = p)
    then Some (default [] (lookup2 d t p) ++ [(N r, sec r)])
    else lookup2 d t p.
Proof.
  rewrite group_step_eq. unfold lookup2. simpl.
  destruct (decide (threads r = t)) as [<-|Ht].
  - rewrite lookup_insert_eq. simpl.
    destruct (decide (pattern r = p)) as [<-|Hp].
    + rewrite decide_True by done. rewrite lookup_insert_eq.
      by destruct (d !! threads r).
    + rewrite decide_False by naive_solver. rewrite lookup_insert_ne by done.
      by destruct (d !! threads r).
  - rewrite decide_False by naive_solver. by rewrite lookup_insert_ne.
Qed.

(** A group holds the records with its keys, in the order of the input;
    there is a group exactly for the keys that occur. *)
Lemma lookup2_data_by_thread data t p :
  lookup2 (data_by_thread data) t p =
    let g := filter (λ r, threads r = t ∧ pattern r = p) data in
    if decide (g = []) then None else Some ((λ r, (N r, sec r)) <$> g).
Proof.
  induction data as [|r data IH] using rev_ind; [done|].
  rewrite data_by_thread_snoc, lookup2_group_step, IH. simpl.
  rewrite filter_app, filter_cons, filter_nil.
  case_decide as Hr.
  - rewrite (decide_False (P := _ ++ [r] = [])) by (by intros [_ ?]%app_nil).
    rewrite fmap_app. case_decide as Hg; [by rewrite Hg|done].
  - by rewrite app_nil_r.
Qed.

End data_by_thread_facts.

(** ** Facts on [a/generate_report.py]: the series dicts *)

Section series_facts.
Import GenerateReport.

(** The records behind the point of pattern [p] at size [n] in the chart
    of thread count [t]. *)
Definition point_records (t : Z) (p : string) (n : Z) (data : list row)
  : list row :=
  filter (λ r, threads r = t ∧ pattern r = p ∧ N r = n) data.

Definition lookup_point (d : gmap string (gmap Z float)) (p : string) (n : Z)
  : option float :=
  dp ← d !! p; dp !! n.

Lemma series_step_eq t d r :
  series_step t d r =
    if decide (threads r = t)
    then <[pattern r := <[N r := sec r]> (default ∅ (d !! pattern r))]> d
    else d.
Proof.
  unfold series_step. case_decide; [|done]. simpl.
  destruct (d !! pattern r) as [dp|] eqn:Hp; simpl.
  - by rewrite Hp.
  - rewrite lookup_insert_eq. simpl. by rewrite insert_insert_eq.
Qed.

Lemma series_of_snoc t data r :
  series_of t (data ++ [r]) = series_step t (series_of t data) r.
Proof. unfold series_of. by rewrite foldl_app. Qed.

Lemma series_step_is_Some t d r p :
  is_Some (series_step t d r !! p) ↔
  (threads r = t ∧ pattern r = p) ∨ is_Some (d !! p).
Proof.
  rewrite series_step_eq. case_decide as Ht; [|naive_solver].
  destruct (decide (pattern r = p)) as [<-|Hp].
  - rewrite lookup_insert_eq. naive_solver.
  - rewrite lookup_insert_ne by done. naive_solver.
Qed.

Lemma lookup_point_series_step t d r p n :
  lookup_point (series_step t d r) p n =
    if decide (threads r = t ∧ pattern r = p ∧ N r = n) then Some (sec r)
    else lookup_point d p n.
Proof.
  rewrite series_step_eq. unfold lookup_point.
  destruct (decide (threads r = t)) as [Ht|Ht];
    [|by rewrite decide_False by naive_solver].
  destruct (decide (pattern r = p)) as [<-|Hp];
    [|by rewrite lookup_insert_ne, decide_False by naive_solver].
  rewrite lookup_insert_eq. simpl.
  destruct (decide (N r = n)) as [<-|Hn].
  - by rewrite lookup_insert_eq, decide_True.
  - rewrite lookup_insert_ne, decide_False by naive_solver.
    by destruct (d !! pattern r).
Qed.

(** A pattern has a series exactly when it has a record at the thread
    count. *)
Lemma series_of_is_Some t data p :
  is_Some (series_of t data !! p) ↔
  ∃ r, r ∈ data ∧ threads r = t ∧ pattern r = p.
Proof.
  induction data as [|r data IH] using rev_ind.
  - unfold series_of. simpl. rewrite lookup_empty, is_Some_alt. set_solver.
  - rewrite series_of_snoc, series_step_is_Some, IH. set_solver.
Qed.

(** The point kept for a size is the time of the last record met. *)
Lemma lookup_point_series_of t data p n :
  lookup_point (series_of t data) p n = sec <$> last (point_records t p n data).
Proof.
  induction data as [|r data IH] using rev_ind; [done|].
  rewrite series_of_snoc, lookup_point_series_step, IH.
  unfold point_records. rewrite filter_app, filter_cons, filter_nil.
  case_decide.
  - by rewrite last_snoc.
  - by rewrite app_nil_r.
Qed.

Lemma series_of_lookup t data p d n :
  series_of t data !! p = Some d →
  d !! n = sec <$> last (point_records t p n data).
Proof.
  intros Hd. rewrite <-lookup_point_series_of. unfold lookup_point.
  by rewrite Hd.
Qed.

Lemma foldl_insert_lookup {V} (f : Z → V) (l : list Z) (m : gmap Z V) t :
  foldl (λ m t, <[t := f t]> m) m l !! t =
    if decide (t ∈ l) then Some (f t) else m !! t.
Proof.
  revert m. induction l as [|x l IH]; intros m; cbn [foldl].
  - case_decide as Hin; [by apply elem_of_nil in Hin|done].
  - rewrite IH. destruct (decide (t ∈ l)) as [Hl|Hl].
    + rewrite decide_True by set_solver. done.
    + destruct (decide (t = x)) as [->|Hx].
      * rewrite decide_True by set_solver. by rewrite lookup_insert_eq.
      * rewrite decide_False by set_solver. by rewrite lookup_insert_ne.
Qed.

Lemma multi_thread_data_lookup data t :
  multi_thread_data data !! t =
    if decide (t ∈ thread_counts data) then Some (series_of t data) else None.
Proof. unfold multi_thread_data. by rewrite foldl_insert_lookup. Qed.

Lemma elem_of_thread_counts data t :
  t ∈ thread_counts data ↔ 1 < t ∧ ∃ r, r ∈ data ∧ threads r = t.
Proof.
  unfold thread_counts. rewrite elem_of_sorted_set_Z, list_elem_of_fmap.
  setoid_rewrite list_elem_of_filter. naive_solver.
Qed.

(** [get_datasets]: one dataset per pattern that has a series, holding
    one entry per axis value. *)
Lemma elem_of_get_datasets pats ns src ds :
  ds ∈ get_datasets pats ns src ↔
  ∃ i p d, pats !! i = Some p ∧ src !! p = Some d ∧
    ds = Dataset p ((λ n, d !! n) <$> ns)
                 (nth (i mod length colors)%nat colors ""%string).
Proof.
  unfold get_datasets. rewrite list_elem_of_join. split.
  - intros (l & Hds & Hl). apply elem_of_lookup_imap in Hl as (i & p & -> & Hp).
    destruct (src !! p) as [d|] eqn:Hd; [|by apply elem_of_nil in Hds].
    apply list_elem_of_singleton in Hds. by exists i, p, d.
  - intros (i & p & d & Hp & Hd & ->). eexists. split; [|by eapply elem_of_lookup_imap_2].
    simpl. rewrite Hd. by apply list_elem_of_singleton.
Qed.

End series_facts.

Section generate_report_facts.
Import GenerateReport.

Lemma mapM_Some_fmap {A B} (f : A → option B) (g : A → B) (l : list A) :
  (∀ x, x ∈ l → f x = Some (g x)) → mapM f l = Some (g <$> l).
Proof.
  intros Hf. apply mapM_Some. induction l as [|x l IH]; simpl; [constructor|].
  constructor; [apply Hf; set_solver|]. apply IH. intros y Hy. apply Hf. set_solver.
Qed.

Lemma elem_of_best_time_labels b k :
  k ∈ best_time_labels b ↔ is_Some (b !! k).
Proof.
  unfold best_time_labels. by rewrite elem_of_sorted, elem_of_elements, elem_of_dom.
Qed.

(** The subscripts of the script never fail: the report exists as soon
    as there is a record, and it is made of these parts. *)
Lemma generate_report_eq data :
  generate_report data =
    (n ← max_n data;
     let pats := patterns data in
     let ns := all_ns data in
     let b := best_times_at n data in
     Some (Report ns
             (get_datasets pats ns (series_of 1 data))
             ((λ t, (t, get_datasets pats ns (series_of t data)))
                <$> thread_counts data)
             n (best_time_labels b)
             ((λ k, default zero (b !! k)) <$> best_time_labels b))).
Proof.
  unfold generate_report, max_n. destruct (Py.max (all_ns data)) as [n|]; [|done].
  simpl.
  rewrite (mapM_Some_fmap _
             (λ t, (t, get_datasets (patterns data) (all_ns data) (series_of t data)))).
  2:{ intros t Ht. rewrite multi_thread_data_lookup. by rewrite decide_True. }
  simpl.
  rewrite (mapM_Some_fmap _ (λ k, default zero (best_times_at n data !! k))).
  2:{ intros k [v Hv]%elem_of_best_time_labels. by rewrite Hv. }
  done.
Qed.


End generate_report_facts.

Section claim_series_aligned.
Import GenerateReport Samples.



End claim_series_aligned.

(** ** Flattening the series dicts of [a/generate_report.py] *)

Section flatten_series.
Import GenerateReport.

Definition flatten_points (t : Z) (pd : string * gmap Z float)
  : list (Z * string * Z * float) :=
  (λ ns : Z * float, (t, pd.1, ns.1, ns.2)) <$> map_to_list pd.2.

(** All points of the chart of thread count [t], as records. *)
Definition flatten_series (t : Z) (d : gmap string (gmap Z float))
  : list (Z * string * Z * float) :=
  map_to_list d ≫= flatten_points t.

Definition flatten_multi (m : gmap Z (gmap string (gmap Z float)))
  : list (Z * string * Z * float) :=
  map_to_list m ≫= (λ td, flatten_series td.1 td.2).

(** No two records with the same thread count, pattern and size. *)
Definition distinct_points (data : list row) : Prop :=
  NoDup ((λ r, (threads r, pattern r, N r)) <$> data).

Lemma distinct_points_snoc data r :
  distinct_points (data ++ [r]) →
  distinct_points data ∧ point_records (threads r) (pattern r) (N r) data = [].
Proof.
  unfold distinct_points. rewrite fmap_app. simpl.
  intros (Hnd & Hnot & _)%NoDup_app. split; [done|].
  unfold point_records.
  destruct (filter _ data) as [|r' g] eqn:Hg; [done|].
  assert (r' ∈ r' :: g) as Hr' by set_solver.
  rewrite <-Hg in Hr'. apply list_elem_of_filter in Hr' as [(Ht & Hp & Hn) Hr'].
  destruct (Hnot (threads r', pattern r', N r')).
  - apply list_elem_of_fmap. by exists r'.
  - rewrite Ht, Hp, Hn. set_solver.
Qed.

Lemma flatten_series_step t d r :
  (threads r = t → lookup_point d (pattern r) (N r) = None) →
  flatten_series t (series_step t d r) ≡ₚ
    flatten_series t d ++ (if decide (threads r = t) then [record_of r] else []).
Proof.
  intros Hnew. rewrite series_step_eq.
  case_decide as Ht; [|by rewrite app_nil_r]. subst t.
  specialize (Hnew eq_refl).
  unfold flatten_series. apply map_bind_update.
  unfold flatten_points. simpl. unfold lookup_point in Hnew.
  destruct (d !! pattern r) as [dp|] eqn:Hd; simpl in *.
  - rewrite map_to_list_insert by done.
    rewrite fmap_cons. by rewrite Permutation_cons_append.
  - by rewrite insert_empty, map_to_list_singleton.
Qed.

(** Without repeated points a chart holds exactly the records of its
    thread count. *)
Lemma flatten_series_of t data :
  distinct_points data →
  flatten_series t (series_of t data) ≡ₚ
    record_of <$> filter (λ r, threads r = t) data.
Proof.
  induction data as [|r data IH] using rev_ind; intros Hd.
  - unfold series_of, flatten_series. simpl. by rewrite map_to_list_empty.
  - apply distinct_points_snoc in Hd as [Hd Hnew].
    rewrite series_of_snoc, flatten_series_step, IH by
      (try done; intros <-; by rewrite lookup_point_series_of, Hnew).
    rewrite filter_app, fmap_app, filter_cons, filter_nil.
    by case_decide.
Qed.

End flatten_series.

Section flatten_multi.
Import GenerateReport.

Lemma map_to_list_foldl_insert {V} (f : Z → V) (ks : list Z) :
  NoDup ks →
  map_to_list (foldl (λ m t, <[t := f t]> m) (∅ : gmap Z V) ks)
    ≡ₚ (λ t, (t, f t)) <$> ks.
Proof.
  induction ks as [|k ks IH] using rev_ind; intros Hnd.
  - simpl. by rewrite map_to_list_empty.
  - apply NoDup_app in Hnd as (Hnd & Hnot & _).
    rewrite foldl_app. cbn [foldl].
    rewrite map_to_list_insert.
    + rewrite IH by done. by rewrite fmap_app, Permutation_cons_append.
    + rewrite foldl_insert_lookup, decide_False; [apply lookup_empty|].
      intros Hk. apply (Hnot k Hk). set_solver.
Qed.

(** Splitting a list by a key and putting the parts together again. *)
Lemma filter_elem_of_cons {A} (key : A → Z) (k : Z) (ks : list Z) (l : list A) :
  k ∉ ks →
  filter (λ x, key x ∈ k :: ks) l ≡ₚ
    filter (λ x, key x = k) l ++ filter (λ x, key x ∈ ks) l.
Proof.
  intros Hk. induction l as [|x l IH]; [done|].
  rewrite !filter_cons.
  destruct (decide (key x = k)) as [Hx|Hx].
  - rewrite decide_True by set_solver. rewrite decide_False by (by rewrite Hx).
    simpl. by rewrite IH.
  - destruct (decide (key x ∈ ks)) as [Hin|Hin].
    + rewrite decide_True by set_solver. rewrite IH.
      by rewrite Permutation_middle.
    + by rewrite decide_False by set_solver.
Qed.

Lemma bind_filter_keys {A} (key : A → Z) (ks : list Z) (l : list A) :
  NoDup ks →
  ks ≫= (λ k, filter (λ x, key x = k) l) ≡ₚ filter (λ x, key x ∈ ks) l.
Proof.
  induction 1 as [|k ks Hk Hnd IH].
  - simpl. induction l as [|x l IHl]; [done|].
    by rewrite filter_cons_False by set_solver.
  - by rewrite bind_cons, IH, filter_elem_of_cons.
Qed.

Lemma bind_Permutation_ext {A B} (f g : A → list B) (l : list A) :
  (∀ x, f x ≡ₚ g x) → l ≫= f ≡ₚ l ≫= g.
Proof.
  intros Hfg. induction l as [|x l IH]; [done|].
  by rewrite !bind_cons, Hfg, IH.
Qed.

Lemma filter_ext_elem_of {A} (P Q : A → Prop)
    `{∀ x, Decision (P x), ∀ x, Decision (Q x)} (l : list A) :
  (∀ x, x ∈ l → P x ↔ Q x) → filter P l = filter Q l.
Proof.
  induction l as [|x l IH]; intros HPQ; [done|].
  rewrite !filter_cons, IH by (intros y Hy; apply HPQ; set_solver).
  destruct (decide (P x)) as [HP|HP].
  - by rewrite decide_True by (apply HPQ; [set_solver|done]).
  - rewrite decide_False; [done|]. intros HQ. apply HP, HPQ; [set_solver|done].
Qed.

Lemma bind_fmap_out {A B C} (f : B → C) (g : A → list B) (l : list A) :
  l ≫= (λ x, f <$> g x) = f <$> (l ≫= g).
Proof.
  induction l as [|x l IH]; [done|]. by rewrite !bind_cons, fmap_app, IH.
Qed.

(** Without repeated points the multi-thread charts hold exactly the
    records with more than one thread. *)
Lemma flatten_multi_thread_data data :
  distinct_points data →
  flatten_multi (multi_thread_data data) ≡ₚ
    record_of <$> filter (λ r, 1 < threads r) data.
Proof.
  intros Hd. unfold flatten_multi, multi_thread_data.
  rewrite map_to_list_foldl_insert by apply NoDup_sorted_set_Z.
  rewrite list_fmap_bind. unfold compose. simpl.
  rewrite (bind_Permutation_ext _
             (λ t, record_of <$> filter (λ r, threads r = t) data))
    by (intros t; by apply flatten_series_of).
  rewrite bind_fmap_out.
  rewrite bind_filter_keys by apply NoDup_sorted_set_Z.
  f_equiv. erewrite filter_ext_elem_of; [done|]. intros r Hr. simpl.
  rewrite elem_of_thread_counts. naive_solver.
Qed.

End flatten_multi.

Section claim_grouping.
Import GenerateReport PlotResultsA Samples.

(** Two timings of the same pattern, size and thread count. *)
Definition repeated_trial : list row :=
  [Row 256 2 f1_0 "row"; Row 256 2 f2_0 "row"]%string.

(** C3, as stated, fails on [a/generate_report.py]: of two records with
    the same thread count, pattern and size the series dict keeps one. *)
Lemma grouping_loses_repeated_trial :
  repeated_trial ≠ [] ∧
  ¬ (flatten_multi (multi_thread_data repeated_trial)
       ≡ₚ record_of <$> filter (λ r, 1 < threads r) repeated_trial) ∧
  flatten_multi (multi_thread_data repeated_trial) = [(2, "row"%string, 256, f2_0)].
Proof.
  split_and!; [done| |by vm_compute].
  intros Hp%Permutation_length. by vm_compute in Hp.
Qed.

(** C3, amended.  [a/plot_results.py]: flattening the groups of
    [data_by_thread] gives the input records back, none lost and none
    repeated; there is a group for each (threads, pattern) that occurs,
    and it lists the (N, sec) of its records in input order.
    [a/generate_report.py]: the series dicts keep, for a thread count,
    pattern and size, the time of the last record met; when no two
    records agree on the three, [single_thread_data] holds exactly the
    records with one thread and [multi_thread_data] exactly those with
    more. *)
Theorem grouping_keeps_records (data : list row) :
  flatten (data_by_thread data) ≡ₚ record_of <$> data ∧
  (∀ t p, lookup2 (data_by_thread data) t p =
     let g := filter (λ r, threads r = t ∧ pattern r = p) data in
     if decide (g = []) then None else Some ((λ r, (N r, sec r)) <$> g)) ∧
  (∀ p n, lookup_point (single_thread_data data) p n =
     sec <$> last (filter (λ r, threads r = 1 ∧ pattern r = p ∧ N r = n) data)) ∧
  (∀ t p n, 1 < t →
     (d ← multi_thread_data data !! t; lookup_point d p n) =
     sec <$> last (filter (λ r, threads r = t ∧ pattern r = p ∧ N r = n) data)) ∧
  (distinct_points data →
     flatten_series 1 (single_thread_data data)
       ≡ₚ record_of <$> filter (λ r, threads r = 1) data ∧
     flatten_multi (multi_thread_data data)
       ≡ₚ record_of <$> filter (λ r, 1 < threads r) data).
Proof.
  split_and!.
  - apply flatten_data_by_thread.
  - intros t p. apply (lookup2_data_by_thread data t p).
  - intros p n. apply (lookup_point_series_of 1 data p n).
  - intros t p n Ht. rewrite multi_thread_data_lookup.
    case_decide as Hin; simpl.
    + apply (lookup_point_series_of t data p n).
    + symmetry. apply fmap_None, last_None.
      destruct (filter _ data) as [|r g] eqn:Hg; [done|]. destruct Hin.
      assert (r ∈ r :: g) as Hr by set_solver.
      rewrite <-Hg in Hr. apply list_elem_of_filter in Hr.
      apply elem_of_thread_counts. naive_solver.
  - intros Hd. split.
    + by apply flatten_series_of.
    + by apply flatten_multi_thread_data.
Qed.

Lemma grouping_keeps_records_witness :
  distinct_points rows_a ∧
  flatten_multi (multi_thread_data rows_a)
    ≡ₚ record_of <$> filter (λ r, 1 < threads r) rows_a.
Proof.
  assert (distinct_points rows_a) as Hd.
  { unfold distinct_points. refine (bool_decide_unpack _ _). by vm_compute. }
  split; [done|].
  exact (proj2 (proj2 (proj2 (proj2 (proj2 (grouping_keeps_records rows_a)))) Hd)).
Defined.

End claim_grouping.

(** ** Records with an unknown pattern code in the [b/] scripts *)

Section unknown_codes.
Import Pandas PlotBestTime.


Lemma filter_fmap {A B} (f : A → B) (P : B → Prop) `{∀ y, Decision (P y)}
    (l : list A) :
  filter P (f <$> l) = f <$> filter (λ x, P (f x)) l.
Proof.
  induction l as [|x l IH]; [done|].
  rewrite fmap_cons, !filter_cons, IH. by case_decide.
Qed.

Lemma select_rows {R} (P : R → Prop) `{∀ r, Decision (P r)} (df : frame R) :
  (select P df).*2 = filter P df.*2.
Proof. unfold select. by rewrite filter_fmap. Qed.

(** The running minimum looks at the values only: relabelling the
    entries relabels the result. *)
Lemma first_min_relabel {A B} (h : A → B) (l : list (A * float)) :
  first_min ((λ x, (h x.1, x.2)) <$> l) = (λ x, (h x.1, x.2)) <$> first_min l.
Proof.
  induction l as [|x l IH] using rev_ind; [done|].
  rewrite fmap_app. simpl. rewrite !first_min_snoc, IH.
  destruct (first_min l) as [[j y]|]; simpl; [|done].
  by destruct (ltb x.2 y).
Qed.

(** The row a group yields, read off the rows without their labels. *)
Definition best_of_rows (k : Z * string) (rows : list brow) : option best_row :=
  (λ x : brow * float, BestRow k.1 k.2 (b_sec x.1) (b_version x.1))
    <$> first_min (filter (λ x, is_nan x.2 = false) ((λ r, (r, b_sec r)) <$> rows)).

Lemma best_of_group_rows k (g : frame brow) :
  NoDup g.*1 → best_of_group k g = best_of_rows k g.*2.
Proof.
  intros Hnd. unfold best_of_group, best_of_rows. rewrite idxmin_filter.
  set (full := (λ ir : nat * brow, (ir, b_sec ir.2)) <$> g).
  assert ((λ ir : nat * brow, (ir.1, b_sec ir.2)) <$> g
          = (λ x : (nat * brow) * float, (x.1.1, x.2)) <$> full) as ->.
  { unfold full. rewrite <-list_fmap_compose. done. }
  assert ((λ r, (r, b_sec r)) <$> g.*2
          = (λ x : (nat * brow) * float, (x.1.2, x.2)) <$> full) as ->.
  { unfold full. rewrite <-!list_fmap_compose. done. }
  rewrite !filter_fmap. simpl.
  rewrite (first_min_relabel fst), (first_min_relabel snd).
  destruct (first_min _) as [[[i r] v]|] eqn:Hmin; simpl; [|done].
  apply first_min_elem_of, list_elem_of_filter in Hmin as [_ Hin].
  apply list_elem_of_fmap in Hin as (ir & [= <- ->] & Hin).
  by rewrite (loc_Some g i r).
Qed.

(** The whole script as a function of the combined rows. *)
Definition combined_rows_of (df_base df_opt : list csv_row) : list brow :=
  filter (λ r, b_N r ∈ Ns)
    ((tag "unoptimized" <$> df_base) ++ (tag "optimized" <$> df_opt)).

Lemma combined_snd df_base df_opt :
  (combined df_base df_opt).*2 = combined_rows_of df_base df_opt.
Proof. unfold combined. by rewrite select_rows, reindex_rows. Qed.

Lemma omap_fmap {A B C} (f : B → option C) (g : A → B) (l : list A) :
  omap f (g <$> l) = omap (λ x, f (g x)) l.
Proof. induction l as [|x l IH]; [done|]. csimpl. by rewrite IH. Qed.

Lemma group_keys_rows df :
  group_keys df =
    Py.sorted key_le (elements (list_to_set (omap row_key df.*2) : gset (Z * string))).
Proof. unfold group_keys. by rewrite omap_fmap. Qed.

Lemma extract_rows df :
  NoDup df.*1 →
  extract df =
    mapM (λ k, best_of_rows k (filter (λ r, row_key r = Some k) df.*2))
         (group_keys df).
Proof.
  intros Hnd. unfold extract. apply mapM_ext. intros k.
  rewrite best_of_group_rows by (by apply NoDup_group).
  unfold group. by rewrite select_rows.
Qed.

Definition best_times_of_rows (rows : list brow) : option (list best_row) :=
  out ← mapM (λ k, best_of_rows k (filter (λ r, row_key r = Some k) rows))
             (Py.sorted key_le
                (elements (list_to_set (omap row_key rows) : gset (Z * string))));
  match out with
  | [] => None
  | _ => Some (Py.sorted out_le out)
  end.

Lemma best_times_as_rows df_base df_opt :
  best_times df_base df_opt =
    best_times_of_rows (combined_rows_of df_base df_opt).
Proof.
  unfold best_times, best_times_of_rows.
  rewrite extract_rows by apply NoDup_combined.
  by rewrite group_keys_rows, combined_snd.
Qed.







End unknown_codes.

Section claim_unknown_codes.
Import Pandas PlotBestTime PlotHistograms.






End claim_unknown_codes.

(** ** Orders of the report *)

Section order_facts.
Import Pandas PlotBestTime.

Global Instance float_le_total : Total float_le.
Proof.
  intros x y. unfold float_le.
  destruct (is_nan x) eqn:Hx; [by right; left|].
  destruct (is_nan y) eqn:Hy; [by left; left|].
  destruct (leb_total x y Hx Hy); [left|right]; by right.
Qed.

Global Instance out_le_total : Total out_le.
Proof.
  intros r1 r2. unfold out_le.
  destruct (Z.lt_trichotomy (o_N r1) (o_N r2)) as [?|[Heq|?]]; [by left; left| |by right; left].
  destruct (total float_le (o_best_time_sec r1) (o_best_time_sec r2));
    [left|right]; by right.
Qed.

Global Instance key_le_total : Total key_le.
Proof.
  intros k1 k2. unfold key_le.
  destruct (Z.lt_trichotomy k1.1 k2.1) as [?|[Heq|?]]; [by left; left| |by right; left].
  destruct (total String.le k1.2 k2.2); [left|right]; by right.
Qed.

(** [unique] lists the values in order of first appearance. *)
Lemma unique_go_filter {A} `{EqDecision A} (seen l : list A) :
  unique_go seen l = filter (λ x, x ∉ seen) (unique l).
Proof.
  unfold unique. revert seen. induction l as [|x l IH]; intros seen; [done|].
  cbn [unique_go]. rewrite (decide_False (P := x ∈ [])) by apply not_elem_of_nil.
  rewrite filter_cons. destruct (decide (x ∈ seen)) as [Hx|Hx].
  - rewrite decide_False by (by intros ?).
    rewrite IH, (IH [x]), list_filter_filter.
    apply list_filter_iff. set_solver.
  - rewrite decide_True by done. f_equal.
    rewrite IH, (IH [x]), list_filter_filter.
    apply list_filter_iff. set_solver.
Qed.

Lemma unique_cons {A} `{EqDecision A} (x : A) (l : list A) :
  unique (x :: l) = x :: filter (λ y, y ≠ x) (unique l).
Proof.
  unfold unique at 1. cbn [unique_go].
  rewrite (decide_False (P := x ∈ [])) by apply not_elem_of_nil.
  f_equal. rewrite unique_go_filter. apply list_filter_iff. set_solver.
Qed.

Lemma elem_of_unique {A} `{EqDecision A} (x : A) (l : list A) :
  x ∈ unique l ↔ x ∈ l.
Proof.
  induction l as [|y l IH]; [done|].
  rewrite unique_cons, !elem_of_cons, list_elem_of_filter, IH.
  destruct (decide (x = y)); naive_solver.
Qed.

Lemma NoDup_unique {A} `{EqDecision A} (l : list A) : NoDup (unique l).
Proof.
  induction l as [|y l IH]; [constructor|].
  rewrite unique_cons. constructor; [|by apply NoDup_filter].
  rewrite list_elem_of_filter. naive_solver.
Qed.

End order_facts.

Section claim_orders.
Import Pandas PlotBestTime PlotResultsD Samples.

Lemma methods_load_data (rows : list drow) :
  methods (load_data rows) = unique (Method <$> rows).
Proof.
  unfold methods, load_data.
  change (λ ir : nat * drow, Method ir.2) with (Method ∘ (snd : nat * drow → drow)).
  by rewrite list_fmap_compose, reindex_rows.
Qed.

Lemma StronglySorted_filter {A} (R : relation A) (P : A → Prop)
    `{∀ x, Decision (P x)} (l : list A) :
  StronglySorted R l → StronglySorted R (filter P l).
Proof.
  induction 1 as [|x l Hl IH Hx]; [constructor|].
  rewrite filter_cons. case_decide; [|done].
  constructor; [done|]. rewrite Forall_forall in Hx |- *.
  intros y Hy%list_elem_of_filter. apply Hx, Hy.
Qed.

(** The datasets come in the order of the pattern list, one for each
    pattern that has a series. *)
Lemma datasets_labels_aux (c : nat → string) pats ns
    (src : gmap string (gmap Z float)) :
  GenerateReport.label <$>
    mjoin (imap (λ i p,
      match src !! p with
      | Some d => [GenerateReport.Dataset p ((λ n, d !! n) <$> ns) (c i)]
      | None => []
      end) pats) =
    filter (λ p, is_Some (src !! p)) pats.
Proof.
  revert c. induction pats as [|p pats IH]; intros c; [done|].
  rewrite imap_cons, filter_cons. csimpl. rewrite fmap_app.
  specialize (IH (λ i, c (S i))). unfold compose. rewrite IH.
  by destruct (src !! p) as [d|].
Qed.

Lemma get_datasets_labels pats ns src :
  GenerateReport.label <$> GenerateReport.get_datasets pats ns src =
    filter (λ p, is_Some (src !! p)) pats.
Proof. apply datasets_labels_aux. Qed.

(** Two methods, the later one in the alphabet measured first, and two
    patterns of one size, the later one in the alphabet being faster. *)
Definition methods_cx : list drow :=
  [DRow "row" 256 1 f2_0 f1_0 f1_0 f1_0; DRow "col" 256 1 f1_0 f1_0 f1_0 f1_0]%string.





End claim_orders.

(** ** Reordering the input of [a/generate_report.py] *)

Section reorder_facts.
Import GenerateReport.

Lemma all_ns_perm data data' : data ≡ₚ data' → all_ns data = all_ns data'.
Proof.
  intros Hp. unfold all_ns. apply sorted_set_Z_ext. intros n. by rewrite Hp.
Qed.

Lemma patterns_perm data data' : data ≡ₚ data' → patterns data = patterns data'.
Proof.
  intros Hp. unfold patterns. apply sorted_set_str_ext. intros n. by rewrite Hp.
Qed.

Lemma thread_counts_perm data data' :
  data ≡ₚ data' → thread_counts data = thread_counts data'.
Proof.
  intros Hp. unfold thread_counts. apply sorted_set_Z_ext. intros n.
  by rewrite Hp.
Qed.

Lemma distinct_points_perm data data' :
  data ≡ₚ data' → distinct_points data → distinct_points data'.
Proof. unfold distinct_points. by intros ->. Qed.

(** With distinct points at most one record stands behind a point. *)
Lemma point_records_short t p n data :
  distinct_points data → (length (point_records t p n data) ≤ 1)%nat.
Proof.
  unfold distinct_points, point_records.
  induction data as [|r data IH]; intros Hd; [simpl; lia|].
  rewrite fmap_cons in Hd. apply NoDup_cons in Hd as [Hr Hd].
  rewrite filter_cons. case_decide as Hk; [|by apply IH].
  destruct (filter _ data) as [|r' g] eqn:Hg; [simpl; lia|]. destruct Hr.
  assert (r' ∈ r' :: g) as Hr' by set_solver.
  rewrite <-Hg in Hr'. apply list_elem_of_filter in Hr' as [(Ht & Hp & Hn) Hr'].
  apply list_elem_of_fmap. exists r'. split; [|done].
  destruct Hk as (-> & -> & ->). by rewrite Ht, Hp, Hn.
Qed.

Lemma last_point_perm t p n data data' :
  data ≡ₚ data' → distinct_points data →
  last (point_records t p n data) = last (point_records t p n data').
Proof.
  intros Hp Hd.
  assert (point_records t p n data ≡ₚ point_records t p n data') as Hpp
    by (unfold point_records; by rewrite Hp).
  pose proof (point_records_short t p n data Hd) as Hlen.
  destruct (point_records t p n data) as [|r [|r2 g]]; simpl in Hlen; [| |lia].
  - by apply Permutation_nil_l in Hpp as <-.
  - by apply Permutation_singleton_l in Hpp as ->.
Qed.

Lemma series_of_perm t data data' :
  data ≡ₚ data' → distinct_points data → series_of t data = series_of t data'.
Proof.
  intros Hp Hd. apply map_eq. intros p.
  destruct (series_of t data !! p) as [d|] eqn:H1,
           (series_of t data' !! p) as [d'|] eqn:H2.
  - f_equal. apply map_eq. intros n.
    rewrite (series_of_lookup _ _ _ _ n H1), (series_of_lookup _ _ _ _ n H2).
    f_equal. by apply last_point_perm.
  - assert (is_Some (series_of t data' !! p)) as [? Hs]; [|congruence].
    apply series_of_is_Some. setoid_rewrite <-Hp.
    apply series_of_is_Some. by eexists.
  - assert (is_Some (series_of t data !! p)) as [? Hs]; [|congruence].
    apply series_of_is_Some. setoid_rewrite Hp.
    apply series_of_is_Some. by eexists.
  - done.
Qed.

(** The least value of a list of positive floats is the same float
    however the list is ordered. *)
Lemma first_min_value_perm {A} (l l' : list (A * float)) :
  l ≡ₚ l' → Forall (λ x, is_positive x.2) l →
  snd <$> first_min l = snd <$> first_min l'.
Proof.
  intros Hp Hpos.
  assert (Forall (λ x : A * float, is_nan x.2 = false) l) as Hn.
  { eapply Forall_impl; [exact Hpos|]. intros x. apply positive_not_nan. }
  assert (Forall (λ x : A * float, is_nan x.2 = false) l') as Hn' by (by rewrite <-Hp).
  destruct (first_min l) as [[a v]|] eqn:H1, (first_min l') as [[a' v']|] eqn:H2;
    simpl.
  - f_equal.
    pose proof (first_min_elem_of _ _ _ H1) as Hin.
    pose proof (first_min_elem_of _ _ _ H2) as Hin'.
    pose proof (first_min_le _ _ _ Hn H1) as Hle.
    pose proof (first_min_le _ _ _ Hn' H2) as Hle'.
    rewrite Forall_forall in Hle, Hle', Hpos.
    apply leb_antisym_positive.
    + by apply (Hpos (a, v)).
    + apply (Hpos (a', v')). by rewrite Hp.
    + apply (Hle (a', v')). by rewrite Hp.
    + apply (Hle' (a, v)). by rewrite <-Hp.
  - apply first_min_None in H2. rewrite H2 in Hp.
    apply Permutation_nil_r in Hp. subst l. done.
  - apply first_min_None in H1. rewrite H1 in Hp.
    apply Permutation_nil_l in Hp. subst l'. done.
  - done.
Qed.

Lemma best_times_at_perm n data data' :
  data ≡ₚ data' → Forall (λ r, is_positive (sec r)) data →
  best_times_at n data = best_times_at n data'.
Proof.
  intros Hp Hpos. apply map_eq. intros p. rewrite !best_times_at_lookup.
  apply first_min_value_perm.
  - unfold with_sec, best_group. by rewrite Hp.
  - unfold with_sec. rewrite Forall_fmap. simpl.
    rewrite Forall_forall in Hpos |- *. intros r Hr%elem_of_best_group.
    apply Hpos, Hr.
Qed.

End reorder_facts.

(** ** Reordering the input of [d/plot_results.py] *)

Section curve_facts.
Import Pandas PlotResultsD.

Definition nanmin_step (best x : float) : float :=
  if is_nan x then best
  else if is_nan best then x
  else if ltb x best then x else best.

Lemma nanmin_snoc col x : nanmin (col ++ [x]) = nanmin_step (nanmin col) x.
Proof. unfold nanmin. by rewrite foldl_app. Qed.

(** On numbers [min] returns an element that is at most every element. *)
Lemma nanmin_spec col :
  Forall (λ x, is_nan x = false) col → col ≠ [] →
  nanmin col ∈ col ∧ Forall (λ x, leb (nanmin col) x = true) col.
Proof.
  induction col as [|x col IH] using rev_ind; intros Hn Hne; [done|].
  apply Forall_app in Hn as [Hn Hx]. rewrite Forall_singleton in Hx.
  rewrite nanmin_snoc. unfold nanmin_step. rewrite Hx.
  destruct col as [|y col'] using rev_ind.
  - simpl. split; [set_solver|]. apply Forall_singleton. by apply leb_refl.
  - clear IHcol'. destruct IH as [Hin Hle]; [done|by intros [_ ?]%app_nil|].
    set (l := col' ++ [y]) in *.
    assert (is_nan (nanmin l) = false) as Hm.
    { rewrite Forall_forall in Hn. by apply Hn. }
    rewrite Hm. destruct (ltb x (nanmin l)) eqn:Hlt.
    + split; [set_solver|]. apply Forall_app. split.
      * eapply Forall_impl; [exact Hle|]. intros z Hz. simpl in Hz.
        apply ltb_leb. by eapply ltb_leb_trans.
      * apply Forall_singleton. by apply leb_refl.
    + split; [set_solver|]. apply Forall_app. split; [done|].
      apply Forall_singleton. by apply ltb_false_leb.
Qed.

Lemma nanmin_perm col col' :
  col ≡ₚ col' → Forall is_positive col → nanmin col = nanmin col'.
Proof.
  intros Hp Hpos.
  destruct (decide (col = [])) as [->|Hne].
  { by apply Permutation_nil_l in Hp as <-. }
  assert (col' ≠ []) as Hne'.
  { intros ->. by apply Permutation_nil_r in Hp. }
  assert (Forall (λ x, is_nan x = false) col) as Hn.
  { eapply Forall_impl; [exact Hpos|]. apply positive_not_nan. }
  assert (Forall (λ x, is_nan x = false) col') as Hn' by (by rewrite <-Hp).
  destruct (nanmin_spec col Hn Hne) as [Hin Hle].
  destruct (nanmin_spec col' Hn' Hne') as [Hin' Hle'].
  rewrite Forall_forall in Hle, Hle', Hpos.
  apply leb_antisym_positive.
  - by apply Hpos.
  - apply Hpos. by rewrite Hp.
  - apply Hle. by rewrite Hp.
  - apply Hle'. by rewrite <-Hp.
Qed.

(** The curve of a method, read off the rows without their labels. *)
Lemma best_time_curve_rows (rows : list drow) m :
  best_time_curve (load_data rows) m =
    (λ n, (n, nanmin (TimeSeconds <$>
                        filter (λ r, MatrixSize r = n)
                               (filter (λ r, Method r = m) rows))))
    <$> Py.sorted_set_Z (MatrixSize <$> filter (λ r, Method r = m) rows).
Proof.
  unfold best_time_curve, load_data.
  change (λ ir : nat * drow, MatrixSize ir.2)
    with (MatrixSize ∘ (snd : nat * drow → drow)).
  change (λ ir : nat * drow, TimeSeconds ir.2)
    with (TimeSeconds ∘ (snd : nat * drow → drow)).
  rewrite list_fmap_compose, select_rows, reindex_rows.
  apply list_fmap_ext. intros _ n _.
  by rewrite list_fmap_compose, !select_rows, reindex_rows.
Qed.

Lemma best_time_curve_perm (rows rows' : list drow) m :
  rows ≡ₚ rows' → Forall (λ r, is_positive (TimeSeconds r)) rows →
  best_time_curve (load_data rows) m = best_time_curve (load_data rows') m.
Proof.
  intros Hp Hpos. rewrite !best_time_curve_rows.
  assert (Py.sorted_set_Z (MatrixSize <$> filter (λ r, Method r = m) rows) =
          Py.sorted_set_Z (MatrixSize <$> filter (λ r, Method r = m) rows')) as <-.
  { apply sorted_set_Z_ext. intros n. by rewrite Hp. }
  apply list_fmap_ext. intros _ n _. f_equal. apply nanmin_perm.
  - by rewrite Hp.
  - rewrite Forall_fmap. rewrite Forall_forall in Hpos |- *.
    intros r [_ [_ Hr]%list_elem_of_filter]%list_elem_of_filter. by apply Hpos.
Qed.

Lemma methods_perm (rows rows' : list drow) :
  rows ≡ₚ rows' → methods (load_data rows) ≡ₚ methods (load_data rows').
Proof.
  intros Hp. rewrite !methods_load_data.
  apply NoDup_Permutation; [apply NoDup_unique..|].
  intros m. by rewrite !elem_of_unique, Hp.
Qed.

Lemma plot_time_comparison_perm (rows rows' : list drow) :
  rows ≡ₚ rows' → Forall (λ r, is_positive (TimeSeconds r)) rows →
  plot_time_comparison (load_data rows) ≡ₚ plot_time_comparison (load_data rows').
Proof.
  intros Hp Hpos. unfold plot_time_comparison.
  rewrite <-(methods_perm rows rows') by done.
  erewrite list_fmap_ext; [done|]. intros _ m _. simpl.
  by rewrite (best_time_curve_perm rows rows').
Qed.

End curve_facts.

Section claim_reorder.
Import GenerateReport Pandas PlotResultsD Samples.

(** One pattern timed twice at one size with one thread. *)
Definition first_trial : row := Row 256 1 f1_0 "row".
Definition second_trial : row := Row 256 1 f2_0 "row".

(** C8, as stated, fails: in [a/generate_report.py] the later of two
    timings of a point is charted, so exchanging them changes the
    report; in [d/plot_results.py] the methods come in input order, so
    exchanging two rows exchanges two curves. *)
Lemma report_depends_on_order :
  [first_trial; second_trial] ≡ₚ [second_trial; first_trial] ∧
  generate_report [first_trial; second_trial]
    ≠ generate_report [second_trial; first_trial] ∧
  plot_time_comparison (load_data methods_cx)
    ≠ plot_time_comparison (load_data (reverse methods_cx)).
Proof.
  split_and!.
  - apply Permutation_swap.
  - intros Heq. by vm_compute in Heq.
  - intros Heq. by vm_compute in Heq.
Qed.

(** C8, amended.  The report of [a/generate_report.py] is unchanged under
    reordering of the input records when every time is positive and no
    two records share thread count, pattern and size.  In
    [d/plot_results.py], when every time is positive, the best-time
    curve of each method is unchanged under reordering, and the chart
    holds the same curves, listed in the order the methods first appear
    in the input. *)
Theorem report_reorder
    (data data' : list row) (rows rows' : list drow) :
  data ≡ₚ data' → distinct_points data →
  Forall (λ r, is_positive (sec r)) data →
  rows ≡ₚ rows' → Forall (λ r, is_positive (TimeSeconds r)) rows →
  generate_report data = generate_report data' ∧
  (∀ m, best_time_curve (load_data rows) m = best_time_curve (load_data rows') m) ∧
  plot_time_comparison (load_data rows) ≡ₚ plot_time_comparison (load_data rows') ∧
  (plot_time_comparison (load_data rows)).*1 = unique (Method <$> rows).
Proof.
  intros Hp Hd Hpos Hq Hqpos. split_and!.
  - rewrite !generate_report_eq. unfold max_n.
    rewrite <-(all_ns_perm data data'), <-(patterns_perm data data'),
      <-(thread_counts_perm data data') by done.
    destruct (Py.max (all_ns data)) as [n|]; simpl; [|done].
    rewrite <-(best_times_at_perm n data data'), <-(series_of_perm 1 data data')
      by done.
    do 2 f_equal.
    apply list_fmap_ext. intros _ t _. by rewrite (series_of_perm t data data').
  - intros m. by apply best_time_curve_perm.
  - by apply plot_time_comparison_perm.
  - unfold plot_time_comparison. rewrite <-list_fmap_compose.
    rewrite <-methods_load_data. apply list_fmap_id.
Qed.

Definition rows_d : list drow :=
  [DRow "row" 256 1 f2_0 f1_0 f1_0 f1_0; DRow "col" 256 1 f1_0 f1_0 f1_0 f1_0;
   DRow "row" 256 2 f1_0 f2_0 f1_0 f1_0; DRow "col" 256 2 f0_5 f2_0 f1_0 f1_0]%string.

Lemma report_reorder_witness :
  rows_a ≡ₚ reverse rows_a ∧ distinct_points rows_a ∧
  Forall (λ r, is_positive (sec r)) rows_a ∧
  rows_d ≡ₚ reverse rows_d ∧
  Forall (λ r, is_positive (TimeSeconds r)) rows_d ∧
  generate_report rows_a = generate_report (reverse rows_a).
Proof.
  assert (distinct_points rows_a) as Hd.
  { unfold distinct_points. refine (bool_decide_unpack _ _). by vm_compute. }
  assert (Forall (λ r, is_positive (sec r)) rows_a) as Hpos
    by (repeat constructor).
  assert (Forall (λ r, is_positive (TimeSeconds r)) rows_d) as Hqpos
    by (repeat constructor).
  assert (rows_a ≡ₚ reverse rows_a) as Hp by (by rewrite reverse_Permutation).
  assert (rows_d ≡ₚ reverse rows_d) as Hq by (by rewrite reverse_Permutation).
  split_and!; [done..|].
  exact (proj1 (report_reorder rows_a (reverse rows_a) rows_d (reverse rows_d)
                  Hp Hd Hpos Hq Hqpos)).
Defined.

End claim_reorder.

(** ** Facts on [generate_text_report] *)

Section text_report_facts.
Import Pandas PlotResultsD.

Definition entry_method (e : entry) : string :=
  match e with
  | TimeLine m _ _ _ | SpeedupLine m _ _ | EfficiencyLine m _ | GflopsLine m _ => m
  end.

(** What a loop wrote was produced by a turn that did not raise. *)
Lemma write_each_lines f ms :
  Forall (λ ln, ∃ m, m ∈ ms ∧ f m = inr ln) (write_each f ms).1.
Proof.
  induction ms as [|m ms IH]; simpl; [constructor|].
  destruct (f m) as [e|ln] eqn:Hm; simpl; [constructor|].
  destruct (write_each f ms) as [out r]. simpl in *. constructor.
  - exists m. split; [set_solver|done].
  - eapply Forall_impl; [exact IH|]. intros ln' (m' & ? & ?). exists m'. set_solver.
Qed.

(** A turn that raises ends the loop with an exception. *)
Lemma write_each_raises f ms m e :
  m ∈ ms → f m = inl e → (write_each f ms).2 = Some IndexError.
Proof.
  intros Hin Hm. induction ms as [|m' ms IH]; [by apply elem_of_nil in Hin|].
  simpl. destruct (f m') as [[]|ln] eqn:Hm'; [done|].
  apply elem_of_cons in Hin as [->|Hin]; [congruence|].
  specialize (IH Hin). by destruct (write_each f ms).
Qed.

(** A loop none of whose turns raises writes one line per method. *)
Lemma write_each_ok f g ms :
  (∀ m, m ∈ ms → f m = inr (g m)) → write_each f ms = (g <$> ms, None).
Proof.
  induction ms as [|m ms IH]; intros Hf; [done|]. simpl.
  rewrite (Hf m) by set_solver. rewrite IH; [done|].
  intros m' ?. apply Hf. set_solver.
Qed.

Lemma time_line_method subset mt m ln :
  time_line subset mt m = inr ln → entry_method ln = m.
Proof.
  unfold time_line. repeat case_match; try done. by intros [= <-].
Qed.

Lemma write_each_no_raise f ms :
  (∀ m, m ∈ ms → ∃ ln, f m = inr ln) →
  (write_each f ms).2 = None ∧ length (write_each f ms).1 = length ms.
Proof.
  induction ms as [|m ms IH]; intros Hf; [done|]. simpl.
  destruct (Hf m) as [ln ->]; [set_solver|].
  destruct IH as [Hr Hlen]; [intros m' ?; apply Hf; set_solver|].
  destruct (write_each f ms) as [out r]. simpl in *. by rewrite Hlen.
Qed.

Lemma column_nonempty (f : drow → float) (P : drow → Prop)
    `{∀ r, Decision (P r)} (df : frame drow) ir :
  ir ∈ df → P ir.2 → ∃ x, values0 (column f P df) = inr x.
Proof.
  intros Hin HP. unfold column.
  destruct (select P df) as [|ir' g] eqn:Hg.
  - assert (ir ∈ select P df) as Hs by (by apply elem_of_select).
    rewrite Hg in Hs. by apply elem_of_nil in Hs.
  - simpl. by eexists.
Qed.

Lemma values0_nil col : values0 col = inl IndexError ↔ col = [].
Proof. by destruct col. Qed.

End text_report_facts.

Section claim_missing_baseline.
Import Pandas PlotResultsD Samples.

(** Method B was run with two threads only; C after it is complete. *)
Definition no_baseline : list drow :=
  [DRow "A" 256 1 f2_0 f1_0 f1_0 f1_0; DRow "A" 256 2 f1_0 f2_0 f1_0 f1_0;
   DRow "B" 256 2 f1_0 f1_0 f1_0 f1_0;
   DRow "C" 256 1 f2_0 f1_0 f1_0 f1_0; DRow "C" 256 2 f1_0 f2_0 f1_0 f1_0]%string.

(** C5, as stated, fails: the method without a baseline is not left out
    of an otherwise complete report; the run ends with [IndexError] at
    that method, and the complete method after it gets no line either.
    The report differs from the one written, to the end, for the same
    records without those of the method. *)
Lemma missing_baseline_raises :
  generate_text_report (load_data no_baseline) =
    ([TimeLine "A" f2_0 f1_0 (S754_finite false 7036874417766400 (-47))],
     Some IndexError) ∧
  generate_text_report (load_data no_baseline) ≠
    generate_text_report
      (load_data (filter (λ r, Method r ≠ "B"%string) no_baseline)) ∧
  (generate_text_report
     (load_data (filter (λ r, Method r ≠ "B"%string) no_baseline))).2 = None.
Proof.
  split_and!.
  - by vm_compute.
  - intros Heq. by vm_compute in Heq.
  - by vm_compute.
Qed.

(** C5, amended.  When a method has no record with one thread at the
    largest size, [generate_text_report] raises [IndexError]; what it
    wrote before are execution-time lines of other methods, so no line,
    and no speedup or efficiency value of any kind, is written for the
    method.  When every method has a record with one thread and a record
    with the largest thread count at the largest size, the report is
    written to the end, four lines per method. *)
Theorem missing_baseline_aborts (df : frame drow) (largest max_threads : Z) :
  Py.max ((λ ir, MatrixSize ir.2) <$> df) = Some largest →
  Py.max ((λ ir, Threads ir.2) <$> df) = Some max_threads →
  (∀ m, m ∈ methods df →
     (∀ ir, ir ∈ df → Method ir.2 = m → MatrixSize ir.2 = largest →
            Threads ir.2 ≠ 1) →
     ∃ out, generate_text_report df = (out, Some IndexError) ∧
       ∀ e, e ∈ out → entry_method e ≠ m ∧
         ∃ t1 tn imp, e = TimeLine (entry_method e) t1 tn imp) ∧
  ((∀ m, m ∈ methods df → ∀ t, t = 1 ∨ t = max_threads →
      ∃ ir, ir ∈ df ∧ Method ir.2 = m ∧ MatrixSize ir.2 = largest ∧
            Threads ir.2 = t) →
   ∃ out, generate_text_report df = (out, None) ∧
          length out = (4 * length (methods df))%nat).
Proof.
  intros Hl Hmt. unfold generate_text_report. rewrite Hl, Hmt.
  set (subset := select (λ r, MatrixSize r = largest) df). split.
  - intros m Hm Hno.
    assert (time_line subset max_threads m = inl IndexError) as Hraise.
    { unfold time_line.
      assert (column TimeSeconds (λ r, Method r = m ∧ Threads r = 1) subset = [])
        as ->; [|done].
      unfold column. destruct (select _ subset) as [|ir g] eqn:Hg; [done|].
      assert (ir ∈ ir :: g) as Hir by set_solver.
      rewrite <-Hg in Hir. apply elem_of_select in Hir as [[Hmeth Ht] Hir].
      apply elem_of_select in Hir as [Hsz Hir]. by destruct (Hno ir). }
    pose proof (write_each_raises _ _ m _ Hm Hraise) as Hr.
    pose proof (write_each_lines (time_line subset max_threads) (methods df))
      as Hlines.
    destruct (write_each (time_line subset max_threads) (methods df))
      as [out r] eqn:Hw.
    simpl in Hr, Hlines. subst r. exists out. split; [done|].
    intros e He. rewrite Forall_forall in Hlines.
    destruct (Hlines e He) as (m' & _ & Hm').
    pose proof (time_line_method _ _ _ _ Hm') as Hem. split.
    + intros Heq. rewrite Hem in Heq. subst m'. congruence.
    + unfold time_line in Hm'. repeat case_match; try done.
      injection Hm' as <-. simpl. eauto.
  - intros Hall.
    assert (∀ m (f : drow → float) t, m ∈ methods df → t = 1 ∨ t = max_threads →
              ∃ x, values0 (column f (λ r, Method r = m ∧ Threads r = t) subset)
                   = inr x) as Hcol.
    { intros m f t Hm Ht. destruct (Hall m Hm t Ht) as (ir & Hir & Hmeth & Hsz & Hthr).
      apply (column_nonempty f _ subset ir); [|done].
      by apply elem_of_select. }
    destruct (write_each_no_raise (time_line subset max_threads) (methods df))
      as [R1 L1].
    { intros m Hm. unfold time_line.
      destruct (Hcol m TimeSeconds 1 Hm) as [t1 ->]; [by left|].
      destruct (Hcol m TimeSeconds max_threads Hm) as [tn ->]; [by right|].
      by eexists. }
    destruct (write_each_no_raise (speedup_line subset max_threads) (methods df))
      as [R2 L2].
    { intros m Hm. unfold speedup_line, at_max.
      destruct (Hcol m Speedup max_threads Hm) as [x ->]; [by right|]. by eexists. }
    destruct (write_each_no_raise (efficiency_line subset max_threads) (methods df))
      as [R3 L3].
    { intros m Hm. unfold efficiency_line, at_max.
      destruct (Hcol m Efficiency max_threads Hm) as [x ->]; [by right|]. by eexists. }
    destruct (write_each_no_raise (gflops_line subset max_threads) (methods df))
      as [R4 L4].
    { intros m Hm. unfold gflops_line, at_max.
      destruct (Hcol m GFLOPS max_threads Hm) as [x ->]; [by right|]. by eexists. }
    unfold and_then. simpl. rewrite R1. simpl. rewrite R2. simpl. rewrite R3.
    eexists. split; [by rewrite R4|].
    simpl. rewrite !length_app, L1, L2, L3, L4. lia.
Qed.

Lemma missing_baseline_aborts_witness :
  Py.max ((λ ir, MatrixSize ir.2) <$> load_data no_baseline) = Some 256 ∧
  Py.max ((λ ir, Threads ir.2) <$> load_data no_baseline) = Some 2 ∧
  ∃ out, generate_text_report (load_data no_baseline) = (out, Some IndexError) ∧
         ∀ e, e ∈ out → entry_method e ≠ "B"%string ∧
              ∃ t1 tn imp, e = TimeLine (entry_method e) t1 tn imp.
Proof.
  assert (Py.max ((λ ir, MatrixSize ir.2) <$> load_data no_baseline) = Some 256)
    as Hl by (by vm_compute).
  assert (Py.max ((λ ir, Threads ir.2) <$> load_data no_baseline) = Some 2)
    as Hmt by (by vm_compute).
  assert ("B"%string ∈ methods (load_data no_baseline)) as Hm.
  { refine (bool_decide_unpack _ _). by vm_compute. }
  split_and!; [done..|].
  apply (proj1 (missing_baseline_aborts (load_data no_baseline) 256 2 Hl Hmt)
           "B"%string Hm).
  assert (Forall (λ ir : nat * drow,
                    Method ir.2 = "B"%string → MatrixSize ir.2 = 256 →
                    Threads ir.2 ≠ 1) (load_data no_baseline)) as HF.
  { repeat constructor; simpl; intros; (congruence || lia). }
  rewrite Forall_forall in HF. exact HF.
Defined.

End claim_missing_baseline.

(** ** The loading loop and non-positive times *)

Section claim_positive_elapsed.
Import Pandas PlotResultsD Samples.






Section loader.
Variable py_int : string → option Z.
Variable py_float : string → option float.

End loader.


End claim_positive_elapsed.

(** * Further properties of the scripts *)

(** ** [a/generate_report.py]: the report as a whole *)

Section report_extras.
Import GenerateReport Samples.


Lemma report_parts data rep :
  generate_report data = Some rep →
  max_n data = Some (r_max_n rep) ∧
  r_ns rep = all_ns data ∧
  r_single rep = get_datasets (patterns data) (all_ns data) (series_of 1 data) ∧
  r_multi rep = (λ t, (t, get_datasets (patterns data) (all_ns data) (series_of t data)))
                  <$> thread_counts data ∧
  r_best_labels rep = best_time_labels (best_times_at (r_max_n rep) data) ∧
  r_best_values rep =
    (λ k, default zero (best_times_at (r_max_n rep) data !! k)) <$> r_best_labels rep.
Proof.
  rewrite generate_report_eq.
  destruct (max_n data) as [n|]; intros; by simplify_eq/=.
Qed.

(** The bar chart of best times: one bar per pattern that has a record at
    the largest size, in lexicographic order, each label once; the value
    at an index is the least time of the label at that index, and it is
    the time of one of its records. *)
Theorem best_time_bars (data : list row) (rep : report) :
  Forall (λ r, is_nan (sec r) = false) data →
  generate_report data = Some rep →
  (∀ p, p ∈ r_best_labels rep ↔
        ∃ r, r ∈ data ∧ N r = r_max_n rep ∧ pattern r = p) ∧
  NoDup (r_best_labels rep) ∧
  Sorted String.le (r_best_labels rep) ∧
  length (r_best_values rep) = length (r_best_labels rep) ∧
  ∀ i p, r_best_labels rep !! i = Some p →
    ∃ v, r_best_values rep !! i = Some v ∧
      (∃ r, r ∈ data ∧ N r = r_max_n rep ∧ pattern r = p ∧ sec r = v) ∧
      (∀ r, r ∈ data → N r = r_max_n rep → pattern r = p → leb v (sec r) = true).
Proof.
  intros Hnan Hrep.
  destruct (report_parts data rep Hrep) as (Hmax & _ & _ & _ & Hlab & Hval).
  split_and!.
  - intros p. rewrite Hlab, elem_of_best_time_labels. apply best_times_at_is_Some.
  - rewrite Hlab. apply NoDup_sorted, NoDup_elements.
  - rewrite Hlab. apply Sorted_sorted, _.
  - by rewrite Hval, length_fmap.
  - intros i p Hp.
    assert (p ∈ r_best_labels rep) as Hin by (by eapply list_elem_of_lookup_2).
    rewrite Hlab in Hin. apply elem_of_best_time_labels in Hin as [v Hv].
    exists v. split.
    + rewrite Hval, list_lookup_fmap, Hp. simpl. by rewrite Hv.
    + by apply best_times_at_min.
Qed.

Lemma best_time_bars_witness :
  Forall (λ r, is_nan (sec r) = false) rows_a ∧
  ∃ rep, generate_report rows_a = Some rep ∧ NoDup (r_best_labels rep).
Proof.
  assert (Forall (λ r, is_nan (sec r) = false) rows_a) as Hn by (repeat constructor).
  split; [done|].
  destruct (generate_report rows_a) as [rep|] eqn:Hrep; [|by vm_compute in Hrep].
  exists rep. split; [done|].
  exact (proj1 (proj2 (best_time_bars rows_a rep Hn Hrep))).
Defined.

End report_extras.

Section chart_extras.
Import GenerateReport Samples.

(** A dataset of the report: on the single-thread chart or on one of the
    multi-thread charts. *)
Definition on_chart (rep : report) (t : Z) (ds : dataset) : Prop :=
  (t = 1 ∧ ds ∈ r_single rep) ∨ (∃ dss, (t, dss) ∈ r_multi rep ∧ ds ∈ dss).

Lemma on_chart_get_datasets data rep t ds :
  generate_report data = Some rep → on_chart rep t ds →
  ds ∈ get_datasets (patterns data) (all_ns data) (series_of t data).
Proof.
  intros Hrep Hds.
  destruct (report_parts data rep Hrep) as (_ & _ & Hs & Hm & _).
  destruct Hds as [[-> Hds]|(dss & Hdss & Hds)]; [by rewrite <-Hs|].
  rewrite Hm in Hdss. by apply list_elem_of_fmap in Hdss as (t' & [= -> ->] & _).
Qed.

Lemma sorted_set_str_filter (xs : list string) (P : string → Prop)
    `{∀ x, Decision (P x)} :
  filter P (Py.sorted_set_str xs) = Py.sorted_set_str (filter P xs).
Proof.
  apply (Sorted_unique String.le).
  - apply StronglySorted_Sorted, StronglySorted_filter.
    apply Sorted_StronglySorted; [apply _|]. apply Sorted_sorted_set_str.
  - apply Sorted_sorted_set_str.
  - apply NoDup_Permutation.
    + apply NoDup_filter, NoDup_sorted_set_str.
    + apply NoDup_sorted_set_str.
    + intros x. rewrite list_elem_of_filter, !elem_of_sorted_set_str.
      by rewrite list_elem_of_filter.
Qed.

Lemma chart_labels data t :
  label <$> get_datasets (patterns data) (all_ns data) (series_of t data) =
    Py.sorted_set_str (pattern <$> filter (λ r, threads r = t) data).
Proof.
  rewrite get_datasets_labels. unfold patterns.
  rewrite sorted_set_str_filter. apply sorted_set_str_ext. intros p.
  rewrite list_elem_of_filter, series_of_is_Some, !list_elem_of_fmap.
  setoid_rewrite list_elem_of_filter. naive_solver.
Qed.

(** The charts of the report: the single-thread chart and one chart per
    thread count above one that occurs, in ascending order; a chart shows
    the patterns that have a record at its thread count, in lexicographic
    order, and a multi-thread chart is never empty. *)
Theorem report_charts (data : list row) (rep : report) :
  generate_report data = Some rep →
  Sorted Z.le (r_multi rep).*1 ∧ NoDup (r_multi rep).*1 ∧
  (∀ t, t ∈ (r_multi rep).*1 ↔ 1 < t ∧ ∃ r, r ∈ data ∧ threads r = t) ∧
  label <$> r_single rep =
    Py.sorted_set_str (pattern <$> filter (λ r, threads r = 1) data) ∧
  (∀ t dss, (t, dss) ∈ r_multi rep →
     dss ≠ [] ∧
     label <$> dss =
       Py.sorted_set_str (pattern <$> filter (λ r, threads r = t) data)).
Proof.
  intros Hrep.
  destruct (report_parts data rep Hrep) as (_ & _ & Hs & Hm & _).
  assert ((r_multi rep).*1 = thread_counts data) as Hfst.
  { rewrite Hm, <-list_fmap_compose. apply list_fmap_id. }
  rewrite Hfst. split_and!.
  - apply Sorted_sorted_set_Z.
  - apply NoDup_sorted_set_Z.
  - apply elem_of_thread_counts.
  - rewrite Hs. apply chart_labels.
  - intros t dss Hin. rewrite Hm in Hin.
    apply list_elem_of_fmap in Hin as (t' & [= -> ->] & Ht).
    split; [|apply chart_labels].
    intros Hnil. apply (f_equal (fmap label)) in Hnil.
    rewrite chart_labels in Hnil. simpl in Hnil.
    apply elem_of_thread_counts in Ht as (_ & r & Hr & Hrt).
    assert (pattern r ∈ Py.sorted_set_str (pattern <$> filter (λ r, threads r = t') data))
      as Hp.
    { apply elem_of_sorted_set_str, list_elem_of_fmap. exists r.
      split; [done|]. by apply list_elem_of_filter. }
    rewrite Hnil in Hp. by apply elem_of_nil in Hp.
Qed.

Lemma report_charts_witness :
  ∃ rep, generate_report rows_a = Some rep ∧ NoDup (r_multi rep).*1.
Proof.
  destruct (generate_report rows_a) as [rep|] eqn:Hrep; [|by vm_compute in Hrep].
  exists rep. split; [done|].
  exact (proj1 (proj2 (report_charts rows_a rep Hrep))).
Defined.

(** A pattern keeps its colour from chart to chart: the colour of a
    dataset is the entry of [colors] at the position of its label in the
    sorted pattern list, modulo the six colours, whatever the chart. *)
Theorem dataset_colors (data : list row) (rep : report) :
  generate_report data = Some rep →
  (∀ t ds, on_chart rep t ds →
     ∃ i, patterns data !! i = Some (label ds) ∧
          borderColor ds = nth (i mod 6)%nat colors ""%string) ∧
  (∀ t t' ds ds', on_chart rep t ds → on_chart rep t' ds' →
     label ds = label ds' → borderColor ds = borderColor ds').
Proof.
  intros Hrep.
  assert (∀ t ds, on_chart rep t ds →
            ∃ i, patterns data !! i = Some (label ds) ∧
                 borderColor ds = nth (i mod 6)%nat colors ""%string) as Hcol.
  { intros t ds Hds.
    apply (on_chart_get_datasets data rep t ds Hrep) in Hds.
    apply elem_of_get_datasets in Hds as (i & p & d & Hp & _ & ->).
    by exists i. }
  split; [done|].
  intros t t' ds ds' Hds Hds' Hlab.
  destruct (Hcol t ds Hds) as (i & Hi & ->).
  destruct (Hcol t' ds' Hds') as (j & Hj & ->).
  rewrite <-Hlab in Hj.
  by rewrite (NoDup_lookup _ i j (label ds) (NoDup_sorted_set_str _) Hi Hj).
Qed.

Lemma dataset_colors_witness :
  ∃ rep, generate_report rows_a = Some rep ∧
    ∀ t ds, on_chart rep t ds →
      ∃ i, patterns rows_a !! i = Some (label ds) ∧
           borderColor ds = nth (i mod 6)%nat colors ""%string.
Proof.
  destruct (generate_report rows_a) as [rep|] eqn:Hrep; [|by vm_compute in Hrep].
  exists rep. split; [done|].
  exact (proj1 (dataset_colors rows_a rep Hrep)).
Defined.

End chart_extras.

(** ** [a/plot_results.py]: the two figures *)

Module PlotResultsAFigures.
Import PlotResultsA.

Definition pattern_labels : gmap Z string :=
  list_to_map [(0, "blocked_32"); (1, "col_major"); (2, "cyclic_rows");
               (3, "linear_flat"); (4, "row_major_rows_per_thread");
               (5, "unroll4")]%string.

(** Python's [<] on the pairs [(n, s)]: the first components decide unless
    they are equal. *)
Definition pair_lt (a b : Z * float) : Prop :=
  a.1 < b.1 ∨ (a.1 = b.1 ∧ ltb a.2 b.2 = true).

(** [sorted] keeps [a] before [b] unless [b < a]; this describes the
    result of Python's sort wherever [<] orders the values, that is on
    lists without NaN. *)
Definition pair_le (a b : Z * float) : Prop := ¬ pair_lt b a.

Global Instance pair_le_dec : RelDecision pair_le.
Proof. intros a b. unfold pair_le, pair_lt. apply _. Defined.

(** One [plt.plot(xs, ys, label=label_name)]. *)
Record line := Line {
  line_label : string;
  line_xs : list Z;
  line_ys : list float
}.

Section plot.
(** Python's [int] on text; [None] stands for the exception the bare
    [except] catches. *)
Variable py_int : string → option Z.

Definition label_name (p : string) : string :=
  match py_int p with
  | Some p_id => default p (pattern_labels !! p_id)
  | None => p
  end.

Definition plot_line (p : string) (group : list (Z * float)) : line :=
  let pts := Py.sorted pair_le group in
  Line (label_name p) pts.*1 pts.*2.

(** The single-thread figure; [None] is the branch that prints the
    warning and draws nothing. *)
Definition single_thread_plot (data : list row) : option (list line) :=
  d1 ← data_by_thread data !! 1;
  Some (omap (λ p, plot_line p <$> d1 !! p) (sorted_patterns data)).
End plot.

End PlotResultsAFigures.

Section figure_facts.
Import PlotResultsA PlotResultsAFigures Samples.

Global Instance pair_le_total : Total pair_le.
Proof.
  intros a b. unfold pair_le, pair_lt.
  destruct (Z.lt_trichotomy a.1 b.1) as [?|[Heq|?]].
  - left. intros [?|[? _]]; lia.
  - destruct (ltb a.2 b.2) eqn:Hlt.
    + left. intros [?|[_ Hba]]; [lia|]. apply ltb_asym in Hlt. congruence.
    + right. intros [?|[_ ?]]; [lia|congruence].
  - right. intros [?|[? _]]; lia.
Qed.

Lemma patterns_set data : patterns data = list_to_set (pattern <$> data).
Proof.
  unfold patterns. induction data as [|r data IH] using rev_ind; [done|].
  rewrite foldl_app, fmap_app, list_to_set_app_L. simpl. rewrite IH. set_solver.
Qed.

Lemma sorted_patterns_eq data :
  sorted_patterns data = Py.sorted_set_str (pattern <$> data).
Proof. unfold sorted_patterns. by rewrite patterns_set. Qed.

Lemma data_by_thread_is_Some data t :
  is_Some (data_by_thread data !! t) ↔ ∃ r, r ∈ data ∧ threads r = t.
Proof.
  induction data as [|r data IH] using rev_ind.
  - unfold data_by_thread. simpl. rewrite lookup_empty, is_Some_alt. set_solver.
  - rewrite data_by_thread_snoc, group_step_eq. simpl.
    destruct (decide (threads r = t)) as [<-|Ht].
    + rewrite lookup_insert_eq. split; [|by eexists]. intros _. exists r. set_solver.
    + rewrite lookup_insert_ne, IH by done. set_solver.
Qed.

(** The lines of a figure, pattern by pattern. *)
Lemma omap_Forall2 {A B} (f : A → option B) (l : list A) :
  Forall2 (λ x y, f x = Some y) (filter (λ x, is_Some (f x)) l) (omap f l).
Proof.
  induction l as [|x l IH]; [constructor|].
  rewrite filter_cons. csimpl.
  destruct (decide (is_Some (f x))) as [[y Hx]|Hx].
  - rewrite Hx. by constructor.
  - destruct (f x) as [y|]; [by destruct Hx|done].
Qed.

End figure_facts.

Section figure_claims.
Import PlotResultsA PlotResultsAFigures Samples.

Lemma omap_Forall2_filter {A B} (f : A → option B) (P : A → Prop)
    `{∀ x, Decision (P x)} (l : list A) :
  (∀ x, P x ↔ is_Some (f x)) →
  Forall2 (λ x y, f x = Some y) (filter P l) (omap f l).
Proof.
  intros HP. rewrite (list_filter_iff P (λ x, is_Some (f x))) by done.
  apply omap_Forall2.
Qed.

Lemma plot_line_spec py_int p (group : list (Z * float)) :
  let ln := plot_line py_int p group in
  line_label ln = label_name py_int p ∧
  Sorted Z.le (line_xs ln) ∧
  length (line_xs ln) = length (line_ys ln) ∧
  zip (line_xs ln) (line_ys ln) ≡ₚ group.
Proof.
  simpl. split_and!.
  - done.
  - apply (Sorted_fmap _ pair_le); [|apply Sorted_sorted, _].
    intros a b Hab. unfold pair_le, pair_lt in Hab.
    destruct (decide (a.1 ≤ b.1)); [done|]. destruct Hab. left. lia.
  - by rewrite !length_fmap.
  - rewrite zip_fst_snd. apply sorted_Permutation.
Qed.

(** The single-thread figure of [a/plot_results.py] is drawn exactly when
    some record has one thread.  It has one line per pattern with such a
    record, in lexicographic order of the patterns; a line carries the
    label of its pattern, its sizes ascend, and its points are the (N, sec)
    of the pattern's single-thread records, every one of them: repeated
    sizes stay repeated. *)
Theorem single_thread_figure
    (py_int : string → option Z) (data : list row) :
  Forall (λ r, is_nan (sec r) = false) data →
  (single_thread_plot py_int data = None ↔ ∀ r, r ∈ data → threads r ≠ 1) ∧
  (∀ lines, single_thread_plot py_int data = Some lines →
     Forall2
       (λ p ln,
          line_label ln = label_name py_int p ∧
          Sorted Z.le (line_xs ln) ∧
          length (line_xs ln) = length (line_ys ln) ∧
          zip (line_xs ln) (line_ys ln) ≡ₚ
            (λ r, (N r, sec r)) <$> filter (λ r, threads r = 1 ∧ pattern r = p) data)
       (Py.sorted_set_str (pattern <$> filter (λ r, threads r = 1) data))
       lines).
Proof.
  intros _. unfold single_thread_plot. split.
  - destruct (data_by_thread data !! 1) as [d1|] eqn:Hd; simpl.
    + split; [done|]. intros Hno.
      destruct (proj1 (data_by_thread_is_Some data 1)) as (r & Hr & Ht);
        [by eexists|]. by destruct (Hno r).
    + split; [|done]. intros _ r Hr Ht.
      destruct (proj2 (data_by_thread_is_Some data 1)) as [d1 Hd1];
        [by exists r|]. congruence.
  - intros lines.
    destruct (data_by_thread data !! 1) as [d1|] eqn:Hd; simpl; [|done].
    intros [= <-].
    assert (∀ p, d1 !! p = lookup2 (data_by_thread data) 1 p) as Hl2.
    { intros p. unfold lookup2. by rewrite Hd. }
    set (one := pattern <$> filter (λ r, threads r = 1) data).
    assert (∀ p, p ∈ one ↔ is_Some (plot_line py_int p <$> d1 !! p)) as HP.
    { intros p. unfold one.
      rewrite fmap_is_Some, Hl2, lookup2_data_by_thread, list_elem_of_fmap. simpl.
      split.
      - intros (r & -> & [Ht Hr]%list_elem_of_filter).
        rewrite decide_False; [done|]. intros Hnil.
        assert (r ∈ filter (λ r0, threads r0 = 1 ∧ pattern r0 = pattern r) data) as Hin
          by (by apply list_elem_of_filter).
        rewrite Hnil in Hin. by apply elem_of_nil in Hin.
      - intros Hs. case_decide as Hg; [by destruct Hs|].
        destruct (filter (λ r, threads r = 1 ∧ pattern r = p) data)
          as [|r' g] eqn:Hf; [done|].
        assert (r' ∈ r' :: g) as Hr' by set_solver.
        rewrite <-Hf in Hr'. apply list_elem_of_filter in Hr' as [[? ?] ?].
        exists r'. split; [done|]. by apply list_elem_of_filter. }
    pose proof (omap_Forall2_filter (λ p, plot_line py_int p <$> d1 !! p)
                  (λ p, p ∈ one) (sorted_patterns data) HP) as HF.
    assert (filter (λ p, p ∈ one) (sorted_patterns data) = Py.sorted_set_str one) as Hps.
    { rewrite sorted_patterns_eq, sorted_set_str_filter.
      apply sorted_set_str_ext. intros p. rewrite list_elem_of_filter.
      unfold one. rewrite !list_elem_of_fmap. setoid_rewrite list_elem_of_filter.
      naive_solver. }
    rewrite Hps in HF. eapply Forall2_impl; [exact HF|].
    intros p ln Hln. simpl in Hln.
    rewrite Hl2, lookup2_data_by_thread in Hln. simpl in Hln.
    case_decide; [done|]. simpl in Hln. injection Hln as <-.
    apply plot_line_spec.
Qed.

Lemma single_thread_figure_witness :
  Forall (λ r, is_nan (sec r) = false) rows_a ∧
  (single_thread_plot (λ _, None) rows_a = None ↔ ∀ r, r ∈ rows_a → threads r ≠ 1).
Proof.
  assert (Forall (λ r, is_nan (sec r) = false) rows_a) as Hn by (repeat constructor).
  split; [done|].
  exact (proj1 (single_thread_figure (λ _, None) rows_a Hn)).
Defined.

(** The bar chart of [a/plot_results.py] is drawn exactly when some record
    has size 2048; it has one bar per pattern with such a record, in
    lexicographic order, and the height at an index is the least time of
    the pattern at that index among its records of size 2048. *)
Theorem best_time_chart_bars (data : list row) :
  Forall (λ r, is_nan (sec r) = false) data →
  (best_time_chart data = None ↔ ∀ r, r ∈ data → N r ≠ 2048) ∧
  (∀ p_names times, best_time_chart data = Some (p_names, times) →
     p_names = Py.sorted_set_str (pattern <$> filter (λ r, N r = 2048) data) ∧
     length times = length p_names ∧
     ∀ i p, p_names !! i = Some p →
       ∃ v, times !! i = Some v ∧
         (∃ r, r ∈ data ∧ N r = 2048 ∧ pattern r = p ∧ sec r = v) ∧
         (∀ r, r ∈ data → N r = 2048 → pattern r = p → leb v (sec r) = true)).
Proof.
  intros Hnan.
  set (b := best_times data).
  set (names := Py.sorted String.le (elements (dom b))).
  assert (∀ p, p ∈ names ↔ is_Some (b !! p)) as Hnames.
  { intros p. unfold names. by rewrite elem_of_sorted, elem_of_elements, elem_of_dom. }
  assert (mapM (λ p, b !! p) names = Some ((λ p, default zero (b !! p)) <$> names))
    as HmapM.
  { apply mapM_Some_fmap. intros p [v Hv]%Hnames. by rewrite Hv. }
  assert (best_time_chart data =
          if decide (b = ∅) then None
          else Some (names, (λ p, default zero (b !! p)) <$> names)) as Hchart.
  { unfold best_time_chart. fold b. case_decide; [done|]. fold names.
    by rewrite HmapM. }
  assert (b = ∅ ↔ ∀ r, r ∈ data → N r ≠ 2048) as Hempty.
  { split.
    - intros Hb r Hr Hn.
      destruct (proj2 (best_times_at_is_Some 2048 (pattern r) data)) as [v Hv];
        [by exists r|].
      fold n_target in Hv. change (b !! pattern r = Some v) in Hv.
      rewrite Hb, lookup_empty in Hv. done.
    - intros Hno. apply map_eq. intros p. rewrite lookup_empty.
      apply eq_None_not_Some. intros Hs.
      apply (best_times_at_is_Some 2048 p data) in Hs as (r & Hr & Hn & _).
      by destruct (Hno r). }
  rewrite Hchart. split.
  - case_decide as Hb; [by rewrite <-Hempty|].
    split; [done|]. intros Hno. by apply Hempty in Hno.
  - intros p_names times. case_decide as Hb; [done|]. intros [= <- <-].
    split_and!.
    + unfold names. rewrite <-(sorted_set_str_ext (elements (dom b))).
      * unfold Py.sorted_set_str. do 2 f_equal. symmetry. apply list_to_set_elements_L.
      * intros p. rewrite elem_of_elements, elem_of_dom, list_elem_of_fmap.
        unfold b. rewrite (best_times_at_is_Some 2048 p data).
        setoid_rewrite list_elem_of_filter. naive_solver.
    + by rewrite length_fmap.
    + intros i p Hp.
      assert (p ∈ names) as [v Hv]%Hnames by (by eapply list_elem_of_lookup_2).
      exists v. split.
      * rewrite list_lookup_fmap, Hp. simpl. by rewrite Hv.
      * by apply (best_times_at_min 2048 p v data Hnan).
Qed.

Lemma best_time_chart_bars_witness :
  Forall (λ r, is_nan (sec r) = false) rows_a ∧
  (best_time_chart rows_a = None ↔ ∀ r, r ∈ rows_a → N r ≠ 2048).
Proof.
  assert (Forall (λ r, is_nan (sec r) = false) rows_a) as Hn by (repeat constructor).
  split; [done|].
  exact (proj1 (best_time_chart_bars rows_a Hn)).
Defined.

End figure_claims.

(** ** [b/plot_best_time.py]: the table as a whole *)

Section best_table_facts.
Import Pandas PlotBestTime Samples.

Lemma mapM_elem_of {A B} (f : A → option B) (l : list A) (k : list B) y :
  mapM f l = Some k → y ∈ k → ∃ x, x ∈ l ∧ f x = Some y.
Proof.
  intros HF%mapM_Some Hy.
  induction HF as [|x y' l k Hx HF IH]; [by apply elem_of_nil in Hy|].
  apply elem_of_cons in Hy as [->|Hy]; [exists x; set_solver|].
  destruct (IH Hy) as (x' & ? & ?). exists x'. set_solver.
Qed.

Lemma elem_of_combined_rows_of df_base df_opt r :
  r ∈ combined_rows_of df_base df_opt ↔
  b_N r ∈ Ns ∧ ((∃ c, c ∈ df_base ∧ r = tag "unoptimized" c) ∨
                (∃ c, c ∈ df_opt ∧ r = tag "optimized" c)).
Proof.
  unfold combined_rows_of.
  rewrite list_elem_of_filter, elem_of_app, !list_elem_of_fmap. naive_solver.
Qed.

(** The keys of the table, read off the rows. *)
Definition keys_of_rows (rows : list brow) : list (Z * string) :=
  Py.sorted key_le (elements (list_to_set (omap row_key rows) : gset (Z * string))).

Lemma elem_of_keys_of_rows rows k :
  k ∈ keys_of_rows rows ↔ ∃ r, r ∈ rows ∧ row_key r = Some k.
Proof.
  unfold keys_of_rows. rewrite elem_of_sorted, elem_of_elements, elem_of_list_to_set.
  apply list_elem_of_omap.
Qed.

Lemma NoDup_keys_of_rows rows : NoDup (keys_of_rows rows).
Proof. apply NoDup_sorted, NoDup_elements. Qed.

Lemma best_of_rows_key k rows o :
  best_of_rows k rows = Some o → (o_N o, o_pattern_name o) = k.
Proof.
  unfold best_of_rows. destruct (first_min _) as [[r v]|]; simpl; [|done].
  intros [= <-]. by destruct k.
Qed.

(** What [best_times] returns, in terms of the rows. *)
Lemma best_times_of_rows_Some rows out :
  best_times_of_rows rows = Some out →
  ∃ extracted,
    Forall2 (λ k o, best_of_rows k (filter (λ r, row_key r = Some k) rows) = Some o)
            (keys_of_rows rows) extracted ∧
    out = Py.sorted out_le extracted.
Proof.
  unfold best_times_of_rows. fold (keys_of_rows rows).
  destruct (mapM _ (keys_of_rows rows)) as [extracted|] eqn:Hm; simpl; [|done].
  apply mapM_Some in Hm. destruct extracted; [done|]. intros [= <-]. eauto.
Qed.

Lemma extracted_keys rows extracted :
  Forall2 (λ k o, best_of_rows k (filter (λ r, row_key r = Some k) rows) = Some o)
          (keys_of_rows rows) extracted →
  (λ o, (o_N o, o_pattern_name o)) <$> extracted = keys_of_rows rows.
Proof.
  induction 1 as [|k o ks os Ho _ IH]; [done|].
  csimpl. by rewrite IH, (best_of_rows_key _ _ _ Ho).
Qed.

End best_table_facts.

Section best_table_claims.
Import Pandas PlotBestTime Samples.

(** The table of [b/plot_best_time.py] has exactly one row for each pair
    of a size of [Ns] and a pattern name that occurs together in a record
    of either file, and no other row. *)
Theorem best_times_one_row_per_group (df_base df_opt : list csv_row)
    (out : list best_row) :
  best_times df_base df_opt = Some out →
  NoDup ((λ o, (o_N o, o_pattern_name o)) <$> out) ∧
  ∀ n p, (∃ o, o ∈ out ∧ o_N o = n ∧ o_pattern_name o = p) ↔
         n ∈ Ns ∧ ∃ c, c ∈ df_base ++ df_opt ∧ c_N c = n ∧
                       pattern_names !! c_pattern c = Some p.
Proof.
  rewrite best_times_as_rows. intros (ex & HF & ->)%best_times_of_rows_Some.
  pose proof (extracted_keys _ _ HF) as Hkeys.
  assert ((λ o, (o_N o, o_pattern_name o)) <$> Py.sorted out_le ex
          ≡ₚ keys_of_rows (combined_rows_of df_base df_opt)) as Hperm.
  { by rewrite sorted_Permutation, Hkeys. }
  split.
  - rewrite Hperm. apply NoDup_keys_of_rows.
  - intros n p.
    assert ((∃ o, o ∈ Py.sorted out_le ex ∧ o_N o = n ∧ o_pattern_name o = p) ↔
            (n, p) ∈ keys_of_rows (combined_rows_of df_base df_opt)) as ->.
    { rewrite <-Hperm, list_elem_of_fmap. naive_solver. }
    rewrite elem_of_keys_of_rows. setoid_rewrite elem_of_combined_rows_of.
    setoid_rewrite elem_of_app. unfold row_key. split.
    + intros (r & [HN [(c & Hc & ->)|(c & Hc & ->)]] & Hk); simpl in *;
        destruct (pattern_names !! c_pattern c) eqn:Hp; simplify_eq/=;
        (split; [done|]); exists c; eauto.
    + intros (HN & c & [Hc|Hc] & <- & Hp).
      * exists (tag "unoptimized" c). simpl. rewrite Hp. eauto 6.
      * exists (tag "optimized" c). simpl. rewrite Hp. eauto 6.
Qed.

Lemma best_times_one_row_per_group_witness :
  ∃ out, best_times base_b opt_b = Some out ∧
         NoDup ((λ o, (o_N o, o_pattern_name o)) <$> out).
Proof.
  destruct (best_times base_b opt_b) as [out|] eqn:Hout; [|by vm_compute in Hout].
  exists out. split; [done|].
  exact (proj1 (best_times_one_row_per_group base_b opt_b out Hout)).
Defined.

(** Records of a size outside [Ns] never count: the script gives the
    result, table or exception, it gives without them. *)
Theorem best_times_only_Ns (df_base df_opt : list csv_row) :
  best_times df_base df_opt =
    best_times (filter (λ r, c_N r ∈ [256; 512; 1024; 2048]) df_base)
               (filter (λ r, c_N r ∈ [256; 512; 1024; 2048]) df_opt).
Proof.
  assert (∀ version (df : list csv_row),
            tag version <$> filter (λ r, c_N r ∈ [256; 512; 1024; 2048]) df =
            filter (λ r, b_N r ∈ Ns) (tag version <$> df)) as Htag.
  { intros version df. by rewrite filter_fmap. }
  rewrite !best_times_as_rows. f_equal. unfold combined_rows_of.
  rewrite !Htag, <-filter_app, list_filter_filter.
  apply list_filter_iff. naive_solver.
Qed.

End best_table_claims.

Section best_table_failure.
Import Pandas PlotBestTime Samples.

Lemma best_of_rows_None k (rows : list brow) :
  best_of_rows k rows = None ↔ ∀ r, r ∈ rows → is_nan (b_sec r) = true.
Proof.
  unfold best_of_rows. rewrite fmap_None, first_min_None. split.
  - intros Hnil r Hr. destruct (is_nan (b_sec r)) eqn:Hn; [done|].
    assert ((r, b_sec r) ∈ filter (λ x : brow * float, is_nan x.2 = false)
                                  ((λ r, (r, b_sec r)) <$> rows)) as Hin.
    { apply list_elem_of_filter. split; [done|]. apply list_elem_of_fmap. by exists r. }
    rewrite Hnil in Hin. by apply elem_of_nil in Hin.
  - intros Hall. destruct (filter _ _) as [|x l] eqn:Hf; [done|].
    assert (x ∈ x :: l) as Hx by set_solver.
    rewrite <-Hf in Hx. apply list_elem_of_filter in Hx as [Hn Hx].
    apply list_elem_of_fmap in Hx as (r & -> & Hr). simpl in Hn.
    rewrite (Hall r Hr) in Hn. done.
Qed.

Lemma best_times_of_rows_None (rows : list brow) :
  best_times_of_rows rows = None ↔
  keys_of_rows rows = [] ∨
  ∃ k, k ∈ keys_of_rows rows ∧
       ∀ r, r ∈ rows → row_key r = Some k → is_nan (b_sec r) = true.
Proof.
  unfold best_times_of_rows. fold (keys_of_rows rows).
  destruct (mapM _ (keys_of_rows rows)) as [ex|] eqn:Hm; simpl.
  - apply mapM_Some in Hm. split.
    + destruct ex as [|o ex]; [|done]. intros _. left.
      by apply Forall2_nil_inv_r in Hm.
    + intros [Hnil|(k & Hk & Hall)].
      * rewrite Hnil in Hm. by apply Forall2_nil_inv_l in Hm as ->.
      * apply list_elem_of_lookup in Hk as [i Hi].
        destruct (Forall2_lookup_l _ _ _ _ _ Hm Hi) as (o & _ & Ho).
        assert (best_of_rows k (filter (λ r, row_key r = Some k) rows) = None)
          as Hnone; [|congruence].
        apply best_of_rows_None. intros r [? ?]%list_elem_of_filter. by apply Hall.
  - split; [|done]. intros _. right.
    apply mapM_None, Exists_exists in Hm as (k & Hk & Hnone).
    exists k. split; [done|]. intros r Hr Hkey.
    apply (proj1 (best_of_rows_None _ _) Hnone), list_elem_of_filter. done.
Qed.

(** The script of [b/plot_best_time.py] ends with an exception in two
    cases only: no record of either file has a size of [Ns] together with
    a known pattern code, or for some such size and pattern every time
    recorded is NaN. *)
Theorem best_times_None (df_base df_opt : list csv_row) :
  best_times df_base df_opt = None ↔
  (∀ c, c ∈ df_base ++ df_opt → c_N c ∈ Ns →
        pattern_names !! c_pattern c = None) ∨
  (∃ n p, n ∈ Ns ∧
     (∃ c, c ∈ df_base ++ df_opt ∧ c_N c = n ∧
           pattern_names !! c_pattern c = Some p) ∧
     ∀ c, c ∈ df_base ++ df_opt → c_N c = n →
          pattern_names !! c_pattern c = Some p → is_nan (c_sec c) = true).
Proof.
  rewrite best_times_as_rows, best_times_of_rows_None.
  set (R := combined_rows_of df_base df_opt).
  assert (∀ n p, (n, p) ∈ keys_of_rows R ↔
            n ∈ Ns ∧ ∃ c, c ∈ df_base ++ df_opt ∧ c_N c = n ∧
                          pattern_names !! c_pattern c = Some p) as Hkeys.
  { intros n p. rewrite elem_of_keys_of_rows. unfold R.
    setoid_rewrite elem_of_combined_rows_of.
    setoid_rewrite elem_of_app. unfold row_key. split.
    - intros (r & [HN [(c & Hc & ->)|(c & Hc & ->)]] & Hk); simpl in *;
        destruct (pattern_names !! c_pattern c) eqn:Hp; simplify_eq/=;
        (split; [done|]); exists c; eauto.
    - intros (HN & c & [Hc|Hc] & <- & Hp).
      + exists (tag "unoptimized" c). simpl. rewrite Hp. eauto 6.
      + exists (tag "optimized" c). simpl. rewrite Hp. eauto 6. }
  assert (∀ n p,
            (∀ r, r ∈ R → row_key r = Some (n, p) → is_nan (b_sec r) = true) ↔
            (n ∈ Ns → ∀ c, c ∈ df_base ++ df_opt → c_N c = n →
               pattern_names !! c_pattern c = Some p → is_nan (c_sec c) = true))
    as Hnan.
  { intros n p. unfold R. setoid_rewrite elem_of_combined_rows_of.
    setoid_rewrite elem_of_app. unfold row_key. split.
    - intros Hall HN c [Hc|Hc] <- Hp.
      + apply (Hall (tag "unoptimized" c)); simpl; [eauto 6|by rewrite Hp].
      + apply (Hall (tag "optimized" c)); simpl; [eauto 6|by rewrite Hp].
    - intros Hall r [HN [(c & Hc & ->)|(c & Hc & ->)]] Hk; simpl in *;
        destruct (pattern_names !! c_pattern c) eqn:Hp; simplify_eq/=;
        apply Hall; auto. }
  split.
  - intros [Hnil|([n p] & Hk & Hall)].
    + left. intros c Hc HN.
      destruct (pattern_names !! c_pattern c) as [p|] eqn:Hp; [|done].
      assert ((c_N c, p) ∈ keys_of_rows R) as Hin by (apply Hkeys; eauto).
      rewrite Hnil in Hin. by apply elem_of_nil in Hin.
    + right. exists n, p. apply Hkeys in Hk as [HN Hc].
      split_and!; [done..|]. by apply Hnan.
  - intros [Hno|(n & p & HN & Hc & Hall)].
    + left. destruct (keys_of_rows R) as [|[n p] ks] eqn:Hks; [done|].
      assert ((n, p) ∈ (n, p) :: ks) as Hin by set_solver.
      apply Hkeys in Hin as (HN & c & Hc & <- & Hp).
      rewrite (Hno c Hc HN) in Hp. done.
    + right. exists (n, p). split; [by apply Hkeys|]. apply Hnan. auto.
Qed.

(** The optimized build is named as the winner of a group only when its
    best time is strictly below every time of the unoptimized build in the
    group: on equal times the unoptimized record, read first, is kept. *)
Theorem optimized_wins_strictly (df_base df_opt : list csv_row)
    (out : list best_row) (o : best_row) :
  no_nan df_base → no_nan df_opt →
  best_times df_base df_opt = Some out → o ∈ out →
  o_best_version o = "optimized"%string →
  ∀ c, c ∈ df_base → c_N c = o_N o →
       pattern_names !! c_pattern c = Some (o_pattern_name o) →
       ltb (o_best_time_sec o) (c_sec c) = true.
Proof.
  intros Hb Ho Hout Hin Hver c Hc HcN Hcp.
  rewrite best_times_as_rows in Hout.
  apply best_times_of_rows_Some in Hout as (ex & HF & ->).
  apply elem_of_sorted, list_elem_of_lookup in Hin as [i Hi].
  destruct (Forall2_lookup_r _ _ _ _ _ HF Hi) as (k & Hk & Hbest).
  apply list_elem_of_lookup_2 in Hk.
  pose proof (best_of_rows_key _ _ _ Hbest) as Hkey.
  set (B := tag "unoptimized" <$> df_base) in *.
  set (O := tag "optimized" <$> df_opt) in *.
  set (P := λ r : brow, row_key r = Some k).
  assert (filter P (combined_rows_of df_base df_opt) =
          filter P (filter (λ r, b_N r ∈ Ns) B) ++ filter P (filter (λ r, b_N r ∈ Ns) O))
    as HG by (unfold combined_rows_of; by rewrite !filter_app).
  fold P in Hbest. rewrite HG in Hbest. unfold best_of_rows in Hbest.
  set (GB := filter P (filter (λ r, b_N r ∈ Ns) B)) in *.
  set (GO := filter P (filter (λ r, b_N r ∈ Ns) O)) in *.
  assert (Forall (λ x : brow * float, is_nan x.2 = false)
            ((λ r, (r, b_sec r)) <$> (GB ++ GO))) as Hnn.
  { rewrite Forall_fmap, Forall_forall. intros r Hr. simpl.
    assert (r ∈ B ++ O) as HrBO.
    { apply elem_of_app in Hr as [Hr|Hr]; apply list_elem_of_filter in Hr as [_ Hr];
        apply list_elem_of_filter in Hr as [_ Hr]; set_solver. }
    unfold no_nan in Hb, Ho. rewrite Forall_forall in Hb, Ho.
    apply elem_of_app in HrBO as [Hr'|Hr'];
      apply list_elem_of_fmap in Hr' as (c' & -> & Hc'); simpl; auto. }
  assert (filter (λ x : brow * float, is_nan x.2 = false)
            ((λ r, (r, b_sec r)) <$> (GB ++ GO)) = (λ r, (r, b_sec r)) <$> (GB ++ GO))
    as Hfil.
  { clear Hbest. induction Hnn as [|x l Hx _ IH]; [done|].
    by rewrite filter_cons, decide_True, IH by done. }
  rewrite Hfil in Hbest.
  destruct (first_min _) as [[r v]|] eqn:Hmin; simpl in Hbest; [|done].
  injection Hbest as <-. simpl in *.
  pose proof (first_min_elem_of _ _ _ Hmin) as Hrv.
  apply list_elem_of_fmap in Hrv as (r' & [= <- ->] & _).
  apply first_min_Some in Hmin as (l1 & l2 & Hsplit & H1 & _); [|done].
  rewrite fmap_app in Hsplit.
  assert (Forall (λ x : brow * float, ltb (b_sec r) x.2 = true)
            ((λ r, (r, b_sec r)) <$> GB)) as HltB.
  { apply app_eq_inv in Hsplit as [(kk & HB & Hrest)|(kk & -> & _)].
    - destruct kk as [|x kk].
      + by rewrite HB, app_nil_r.
      + simpl in Hrest. injection Hrest as <- _.
        assert ((r, b_sec r) ∈ (λ r, (r, b_sec r)) <$> GB) as Hin
          by (rewrite HB; set_solver).
        apply list_elem_of_fmap in Hin as (r' & [= <-] & Hr').
        apply list_elem_of_filter in Hr' as [_ Hr'].
        apply list_elem_of_filter in Hr' as [_ Hr'].
        apply list_elem_of_fmap in Hr' as (c' & -> & _). done.
    - by apply Forall_app in H1 as [H1 _]. }
  rewrite Forall_fmap, Forall_forall in HltB.
  apply (HltB (tag "unoptimized" c)).
  apply list_elem_of_filter. split.
  - unfold P, row_key. simpl. rewrite Hcp. simpl. by rewrite HcN, <-Hkey.
  - apply list_elem_of_filter. split; [|apply list_elem_of_fmap; by exists c].
    simpl. rewrite HcN.
    apply elem_of_keys_of_rows in Hk as (r0 & Hr0 & Hk0).
    apply elem_of_combined_rows_of in Hr0 as [HN _].
    unfold row_key in Hk0. destruct (b_pattern_name r0); simplify_eq/=. done.
Qed.

Lemma optimized_wins_strictly_witness :
  no_nan base_b ∧ no_nan opt_b ∧
  ∃ out, best_times base_b opt_b = Some out ∧
    ∀ c, c ∈ base_b → c_N c = 256 →
         pattern_names !! c_pattern c = Some "col_major"%string →
         ltb f1_0 (c_sec c) = true.
Proof.
  assert (no_nan base_b) as Hb by (repeat constructor).
  assert (no_nan opt_b) as Ho by (repeat constructor).
  split_and!; [done..|].
  destruct (best_times base_b opt_b) as [out|] eqn:Hout; [|by vm_compute in Hout].
  exists out. split; [done|].
  apply (optimized_wins_strictly base_b opt_b out
           (BestRow 256 "col_major" f1_0 "optimized") Hb Ho Hout); [|done].
  vm_compute in Hout. injection Hout as <-. set_solver.
Defined.

End best_table_failure.

(** ** [b/plot_histograms.py]: which figures are saved *)

Section histogram_claims.
Import Pandas PlotBestTime PlotHistograms Samples.






End histogram_claims.

(** ** [d/plot_results.py]: the figures *)

Module PlotResultsDFigures.
Import Pandas PlotResultsD.

(** [sorted(df[col].unique())] *)
Definition sorted_unique (col : list Z) : list Z := Py.sorted Z.le (unique col).

Definition largest_size (df : frame drow) : option Z :=
  Py.max ((λ ir, MatrixSize ir.2) <$> df).

(** [df['Threads'].max()]; [None] is the NaN of an empty column. *)
Definition max_threads (df : frame drow) : option Z :=
  Py.max ((λ ir, Threads ir.2) <$> df).

(** [df[df['MatrixSize'] == largest_size]]: nothing equals NaN. *)
Definition largest_subset (df : frame drow) : frame drow :=
  match largest_size df with
  | Some n => select (λ r, MatrixSize r = n) df
  | None => []
  end.

(** *** [plot_efficiency_analysis], the heat map *)

(** One cell: [np.zeros] put 0.0 there, the loop overwrites it with the
    efficiency of the first matching row when there is one. *)
Definition efficiency_cell (df : frame drow) (mt : option Z)
    (method : string) (size : Z) : float :=
  let subset_data :=
    select (λ r, Method r = method ∧ MatrixSize r = size ∧ Some (Threads r) = mt) df in
  match subset_data with
  | [] => zero
  | ir :: _ => Efficiency ir.2
  end.

Definition efficiency_matrix (df : frame drow) : list (list float) :=
  let sizes := sorted_unique ((λ ir, MatrixSize ir.2) <$> df) in
  let mt := max_threads df in
  (λ method, efficiency_cell df mt method <$> sizes) <$> methods df.

(** *** [plot_summary_dashboard], the best configuration *)

Definition peak_data (df : frame drow) : frame drow :=
  select (λ r, Some (Threads r) = max_threads df) (largest_subset df).

(** [peak_data.loc[peak_data['TimeSeconds'].idxmin()]]; [None] is the
    exception raised when [peak_data] holds no number. *)
Definition best_row (df : frame drow) : option drow :=
  best_idx ← idxmin ((λ ir, (ir.1, TimeSeconds ir.2)) <$> peak_data df);
  loc (peak_data df) best_idx.

(** *** Lines of speedup against threads *)

Record curve := Curve {
  curve_label : string;
  curve_xs : list Z;
  curve_ys : list float
}.

Section lines.
(** [sort_values('Threads')].  pandas sorts a single column with a sort
    that need not be stable, so the order of rows with equal thread counts
    is not fixed by the script: the sort is a parameter. *)
Variable sort_by_threads : frame drow → frame drow.

Definition method_curve (subset : frame drow) (method : string) : curve :=
  let method_data := sort_by_threads (select (λ r, Method r = method) subset) in
  Curve method ((λ ir, Threads ir.2) <$> method_data)
               ((λ ir, Speedup ir.2) <$> method_data).

(** *** [plot_scalability_analysis] *)

Record panel := Panel {
  panel_size : Z;
  panel_threads : list Z;
  panel_curves : list curve
}.

Definition scalability_panel (df : frame drow) (size : Z) : panel :=
  let subset := select (λ r, MatrixSize r = size) df in
  Panel size (sorted_unique ((λ ir, Threads ir.2) <$> subset))
        (method_curve subset <$> methods df).

(** [plt.subplots(2, 2)], flattened: four axes. *)
Definition n_axes : nat := 4.

(** The loop over [enumerate(sizes)] from index [idx] on; [axes[idx]]
    raises [IndexError] past the last axis, and then nothing is saved. *)
Fixpoint draw_panels (df : frame drow) (idx : nat) (sizes : list Z)
  : exn + list panel :=
  match sizes with
  | [] => inr []
  | size :: rest =>
      if decide (idx < n_axes)%nat then
        match draw_panels df (S idx) rest with
        | inl e => inl e
        | inr ps => inr (scalability_panel df size :: ps)
        end
      else inl IndexError
  end.

Definition plot_scalability_analysis (df : frame drow) : exn + list panel :=
  draw_panels df 0 (sorted_unique ((λ ir, MatrixSize ir.2) <$> df)).

(** *** [plot_speedup_analysis] *)

Definition markers : list string := ["o"; "s"; "^"; "D"; "v"]%string.

(** The loop over [enumerate(methods)] from index [idx] on; [markers[idx]]
    raises [IndexError] past the fifth method. *)
Fixpoint draw_lines (subset : frame drow) (idx : nat) (ms : list string)
  : exn + list (string * curve) :=
  match ms with
  | [] => inr []
  | method :: rest =>
      match markers !! idx with
      | None => inl IndexError
      | Some marker =>
          match draw_lines subset (S idx) rest with
          | inl e => inl e
          | inr ls => inr ((marker, method_curve subset method) :: ls)
          end
      end
  end.

Record speedup_figure := SpeedupFigure {
  sp_ideal : list Z;
  sp_lines : list (string * curve);
  sp_bars : list (string * float)
}.

Definition plot_speedup_analysis (df : frame drow) : exn + speedup_figure :=
  let subset := largest_subset df in
  let threads := sorted_unique ((λ ir, Threads ir.2) <$> subset) in
  match draw_lines subset 0 (methods df) with
  | inl e => inl e
  | inr ls =>
      let max_thread_data :=
        select (λ r, Some (Threads r) = max_threads subset) subset in
      inr (SpeedupFigure threads ls
             ((λ ir, (Method ir.2, Speedup ir.2)) <$> max_thread_data))
  end.
End lines.

End PlotResultsDFigures.

Section d_figure_facts.
Import Pandas PlotResultsD PlotResultsDFigures Samples.

Lemma sorted_unique_eq col : sorted_unique col = Py.sorted_set_Z col.
Proof.
  unfold sorted_unique, Py.sorted_set_Z. apply (sorted_perm_eq Z.le).
  apply NoDup_Permutation; [apply NoDup_unique|apply NoDup_elements|].
  intros x. rewrite elem_of_unique, elem_of_elements. set_solver.
Qed.

Lemma length_sorted_unique col : length (sorted_unique col) = length (unique col).
Proof. unfold sorted_unique. apply length_sorted. Qed.

Lemma draw_panels_spec sort df idx sizes :
  draw_panels sort df idx sizes =
    if decide (sizes = [] ∨ idx + length sizes ≤ n_axes)%nat
    then inr (scalability_panel sort df <$> sizes)
    else inl IndexError.
Proof.
  revert idx. induction sizes as [|size rest IH]; intros idx; cbn [draw_panels].
  - by rewrite decide_True by (by left).
  - rewrite IH. unfold n_axes in *. rewrite fmap_cons, length_cons.
    destruct (decide (idx < 4)%nat) as [Hidx|Hidx].
    + destruct (decide (rest = [] ∨ (S idx + length rest ≤ 4)%nat)) as [Hr|Hr].
      * rewrite decide_True; [done|]. right. simpl.
        destruct Hr as [->|?]; simpl; lia.
      * rewrite decide_False; [done|]. intros [?|Hle]; [done|]. simpl in Hle.
        apply Hr. right. lia.
    + rewrite decide_False; [done|]. intros [?|Hle]; [done|]. simpl in Hle. lia.
Qed.

Lemma draw_lines_spec sort subset idx ms :
  draw_lines sort subset idx ms =
    if decide (ms = [] ∨ idx + length ms ≤ 5)%nat
    then inr (zip (take (length ms) (drop idx markers))
                  (method_curve sort subset <$> ms))
    else inl IndexError.
Proof.
  revert idx. induction ms as [|m rest IH]; intros idx; cbn [draw_lines].
  - by rewrite decide_True by (by left).
  - rewrite IH. rewrite fmap_cons, length_cons.
    destruct (markers !! idx) as [marker|] eqn:Hmk.
    + assert (idx < 5)%nat as Hidx by (apply lookup_lt_Some in Hmk; done).
      rewrite (drop_S _ _ _ Hmk). cbn [take zip zip_with].
      destruct (decide (rest = [] ∨ (S idx + length rest ≤ 5)%nat)) as [Hr|Hr].
      * rewrite decide_True; [reflexivity|]. right.
        destruct Hr as [->|?]; simpl; lia.
      * rewrite decide_False; [done|]. intros [?|Hle]; [done|].
        apply Hr. right. lia.
    + apply lookup_ge_None in Hmk. simpl in Hmk.
      rewrite decide_False; [done|]. intros [?|Hle]; [done|]. lia.
Qed.

End d_figure_facts.

Section d_figure_claims.
Import Pandas PlotResultsD PlotResultsDFigures Samples.

(** [plot_scalability_analysis] has room for four matrix sizes: with more
    than four distinct sizes in the file it raises [IndexError] and saves
    no figure; otherwise it draws one panel per size, in ascending order
    of the sizes. *)
Theorem scalability_four_sizes
    (sort : frame drow → frame drow) (df : frame drow) :
  let sizes := sorted_unique ((λ ir, MatrixSize ir.2) <$> df) in
  (plot_scalability_analysis sort df = inl IndexError ↔
   (4 < length (unique ((λ ir, MatrixSize ir.2) <$> df)))%nat) ∧
  ((length (unique ((λ ir, MatrixSize ir.2) <$> df)) ≤ 4)%nat →
   plot_scalability_analysis sort df = inr (scalability_panel sort df <$> sizes) ∧
   Sorted Z.le sizes ∧ NoDup sizes).
Proof.
  intros sizes. unfold plot_scalability_analysis. fold sizes.
  rewrite draw_panels_spec. unfold n_axes.
  rewrite <-length_sorted_unique. fold sizes. split.
  - case_decide as Hd; split; try done.
    + intros Hlt. destruct Hd as [Hnil|Hle]; [rewrite Hnil in Hlt; simpl in Hlt|]; lia.
    + intros _. destruct (decide (4 < length sizes)%nat); [done|].
      destruct Hd. right. lia.
  - intros Hle. rewrite decide_True by (right; lia). split_and!; [done| |].
    + unfold sizes. rewrite sorted_unique_eq. apply Sorted_sorted_set_Z.
    + unfold sizes. rewrite sorted_unique_eq. apply NoDup_sorted_set_Z.
Qed.

Lemma scalability_four_sizes_witness :
  (length (unique ((λ ir, MatrixSize ir.2) <$> load_data rows_d)) ≤ 4)%nat ∧
  NoDup (sorted_unique ((λ ir, MatrixSize ir.2) <$> load_data rows_d)).
Proof.
  assert (length (unique ((λ ir, MatrixSize ir.2) <$> load_data rows_d)) ≤ 4)%nat
    as Hle by (vm_compute; lia).
  split; [done|].
  exact (proj2 (proj2 (proj2 (scalability_four_sizes id (load_data rows_d)) Hle))).
Defined.

(** [plot_speedup_analysis] has markers for five methods: with more than
    five distinct methods in the file it raises [IndexError]; otherwise it
    draws one line per method, in the order the methods first appear, the
    line of the method at index [i] carrying the marker at index [i]. *)
Theorem speedup_five_methods
    (sort : frame drow → frame drow) (df : frame drow) :
  (plot_speedup_analysis sort df = inl IndexError ↔
   (5 < length (methods df))%nat) ∧
  (∀ fig, plot_speedup_analysis sort df = inr fig →
     (length (methods df) ≤ 5)%nat ∧
     curve_label <$> (sp_lines fig).*2 = methods df ∧
     (sp_lines fig).*1 = take (length (methods df)) markers).
Proof.
  unfold plot_speedup_analysis. rewrite draw_lines_spec. simpl. split.
  - case_decide as Hd; split; try done.
    + intros Hlt. destruct Hd as [Hnil|Hle]; [rewrite Hnil in Hlt; simpl in Hlt|]; lia.
    + intros _. destruct (decide (5 < length (methods df))%nat); [done|].
      destruct Hd. right. lia.
  - intros fig. case_decide as Hd; [|done]. intros [= <-]. simpl.
    assert (length (methods df) ≤ 5)%nat as Hle.
    { destruct Hd as [->|?]; simpl; lia. }
    split_and!; [done| |].
    + rewrite snd_zip by (rewrite length_take, length_fmap; simpl; lia).
      rewrite <-list_fmap_compose. apply list_fmap_id.
    + rewrite fst_zip by (rewrite length_take, length_fmap; simpl; lia). done.
Qed.

End d_figure_claims.

Section d_curve_claims.
Import Pandas PlotResultsD PlotResultsDFigures Samples.

Lemma zip_fmap_same {A B C} (f : A → B) (g : A → C) (l : list A) :
  zip (f <$> l) (g <$> l) = (λ x, (f x, g x)) <$> l.
Proof. induction l as [|x l IH]; [done|]. csimpl. by rewrite IH. Qed.

(** A sort by thread count that is stable, one of those the parameter
    stands for. *)
Definition threads_le (a b : nat * drow) : Prop := Threads a.2 ≤ Threads b.2.

Global Instance threads_le_dec : RelDecision threads_le.
Proof. intros a b. unfold threads_le. apply _. Defined.

Global Instance threads_le_total : Total threads_le.
Proof. intros a b. unfold threads_le. lia. Qed.

Definition stable_sort_by_threads (df : frame drow) : frame drow :=
  Py.sorted threads_le df.

Lemma stable_sort_perm df : stable_sort_by_threads df ≡ₚ df.
Proof. apply sorted_Permutation. Qed.

Lemma stable_sort_sorted df :
  Sorted Z.le ((λ ir, Threads ir.2) <$> stable_sort_by_threads df).
Proof.
  apply (Sorted_fmap _ threads_le); [done|]. apply Sorted_sorted, _.
Qed.

Section with_sort.
Variable sort : frame drow → frame drow.
Hypothesis sort_perm : ∀ df, sort df ≡ₚ df.
Hypothesis sort_sorted : ∀ df, Sorted Z.le ((λ ir, Threads ir.2) <$> sort df).

Lemma method_curve_spec (subset : frame drow) (m : string) :
  let c := method_curve sort subset m in
  curve_label c = m ∧ Sorted Z.le (curve_xs c) ∧
  length (curve_xs c) = length (curve_ys c) ∧
  zip (curve_xs c) (curve_ys c) ≡ₚ
    (λ r, (Threads r, Speedup r)) <$> filter (λ r, Method r = m) subset.*2.
Proof.
  simpl. split_and!; [done|apply sort_sorted|by rewrite !length_fmap|].
  rewrite zip_fmap_same, sort_perm, <-select_rows, <-list_fmap_compose. done.
Qed.

(** Whatever order the sort leaves between rows of equal thread count,
    every panel of the scalability figure has one curve per method, in the
    order the methods first appear, also for a method without a record at
    the panel's size; the thread counts along a curve ascend, and its
    points are the (threads, speedup) of all records of its method at the
    panel's size. *)
Theorem scalability_curves (df : frame drow) (panels : list panel) :
  plot_scalability_analysis sort df = inr panels →
  panel_size <$> panels = sorted_unique ((λ ir, MatrixSize ir.2) <$> df) ∧
  ∀ pn, pn ∈ panels →
    curve_label <$> panel_curves pn = methods df ∧
    ∀ c, c ∈ panel_curves pn →
      Sorted Z.le (curve_xs c) ∧
      length (curve_xs c) = length (curve_ys c) ∧
      zip (curve_xs c) (curve_ys c) ≡ₚ
        (λ r, (Threads r, Speedup r)) <$>
          filter (λ r, MatrixSize r = panel_size pn ∧ Method r = curve_label c) df.*2.
Proof.
  unfold plot_scalability_analysis. rewrite draw_panels_spec.
  case_decide; [|done]. intros [= <-]. split.
  - rewrite <-list_fmap_compose. apply list_fmap_id.
  - intros pn (size & -> & _)%list_elem_of_fmap. simpl. split.
    + rewrite <-list_fmap_compose. apply list_fmap_id.
    + intros c (m & -> & _)%list_elem_of_fmap.
      destruct (method_curve_spec (select (λ r, MatrixSize r = size) df) m)
        as (Hl & Hs & Hlen & Hz).
      split_and!; [done..|].
      rewrite Hz, Hl, select_rows, list_filter_filter.
      erewrite list_filter_iff; [done|]. naive_solver.
Qed.

End with_sort.

Lemma scalability_curves_witness :
  (∀ df, stable_sort_by_threads df ≡ₚ df) ∧
  (∀ df, Sorted Z.le ((λ ir, Threads ir.2) <$> stable_sort_by_threads df)) ∧
  ∃ panels,
    plot_scalability_analysis stable_sort_by_threads (load_data rows_d) = inr panels ∧
    panel_size <$> panels =
      sorted_unique ((λ ir, MatrixSize ir.2) <$> load_data rows_d).
Proof.
  split_and!; [apply stable_sort_perm|apply stable_sort_sorted|].
  destruct (plot_scalability_analysis stable_sort_by_threads (load_data rows_d))
    as [e|panels] eqn:Hp; [by vm_compute in Hp|].
  exists panels. split; [done|].
  exact (proj1 (scalability_curves stable_sort_by_threads stable_sort_perm
                  stable_sort_sorted (load_data rows_d) panels Hp)).
Defined.

End d_curve_claims.

Section d_summary_claims.
Import Pandas PlotResultsD PlotResultsDFigures Samples.







(** The cell of the heat map for a method and a size. *)
Definition cell_at (m : list (list float)) (i j : nat) : option float :=
  row ← m !! i; row !! j.

(** The efficiency heat map has one row per method and one column per
    distinct size.  A cell holds the efficiency of a record with its
    method, its size and the largest thread count of the file; where the
    file has no such record the cell holds 0.0, as if an efficiency of
    zero had been measured. *)
Theorem heat_map_cells (df : frame drow) :
  length (efficiency_matrix df) = length (methods df) ∧
  (∀ row, row ∈ efficiency_matrix df →
     length row = length (unique ((λ ir, MatrixSize ir.2) <$> df))) ∧
  ∀ i j m s,
    methods df !! i = Some m →
    sorted_unique ((λ ir, MatrixSize ir.2) <$> df) !! j = Some s →
    ∃ x, cell_at (efficiency_matrix df) i j = Some x ∧
      ((∀ ir, ir ∈ df → Method ir.2 = m → MatrixSize ir.2 = s →
              Some (Threads ir.2) ≠ max_threads df) → x = zero) ∧
      ((∃ ir, ir ∈ df ∧ Method ir.2 = m ∧ MatrixSize ir.2 = s ∧
              Some (Threads ir.2) = max_threads df) →
       ∃ ir, ir ∈ df ∧ Method ir.2 = m ∧ MatrixSize ir.2 = s ∧
             Some (Threads ir.2) = max_threads df ∧ x = Efficiency ir.2).
Proof.
  unfold efficiency_matrix. split_and!.
  - by rewrite length_fmap.
  - intros row (m & -> & _)%list_elem_of_fmap.
    by rewrite length_fmap, length_sorted_unique.
  - intros i j m s Hm Hs. unfold cell_at.
    rewrite list_lookup_fmap, Hm. simpl. rewrite list_lookup_fmap, Hs. simpl.
    eexists. split; [done|]. unfold efficiency_cell.
    destruct (select _ df) as [|ir g] eqn:Hsel.
    + split; [done|]. intros (ir & Hir & Hmeth & Hsz & Hth).
      assert (ir ∈ select (λ r, Method r = m ∧ MatrixSize r = s ∧
                                Some (Threads r) = max_threads df) df) as Hin
        by (by apply elem_of_select).
      rewrite Hsel in Hin. by apply elem_of_nil in Hin.
    + assert (ir ∈ ir :: g) as Hin by set_solver.
      rewrite <-Hsel in Hin. apply elem_of_select in Hin as [(? & ? & ?) ?].
      split.
      * intros Hno. by destruct (Hno ir).
      * intros _. by exists ir.
Qed.

End d_summary_claims.

Section text_report_shape.
Import Pandas PlotResultsD PlotResultsDFigures Samples.

Lemma write_each_cases (f : string → exn + entry) (ms : list string) :
  (∃ m, m ∈ ms ∧ f m = inl IndexError) ∨ (∀ m, m ∈ ms → ∃ ln, f m = inr ln).
Proof.
  induction ms as [|m ms [(m' & ? & ?)|IH]].
  - right. by intros m ?%elem_of_nil.
  - left. exists m'. set_solver.
  - destruct (f m) as [[]|ln] eqn:Hm.
    + left. exists m. set_solver.
    + right. intros m' [->|?]%elem_of_cons; [by eexists|by apply IH].
Qed.

Lemma write_each_methods (f : string → exn + entry) (ms : list string) :
  (∀ m, m ∈ ms → ∃ ln, f m = inr ln ∧ entry_method ln = m) →
  ∃ out, write_each f ms = (out, None) ∧ entry_method <$> out = ms.
Proof.
  induction ms as [|m ms IH]; intros Hf; [by exists []|].
  destruct (Hf m) as (ln & Hln & Hm); [set_solver|].
  destruct IH as (out & Hout & Hms); [intros m' ?; apply Hf; set_solver|].
  exists (ln :: out). cbn [write_each]. rewrite Hln, Hout. split; [done|].
  rewrite fmap_cons. by rewrite Hm, Hms.
Qed.

Lemma values0_column (f g : drow → float) (P : drow → Prop)
    `{∀ r, Decision (P r)} (df : frame drow) x :
  values0 (column f P df) = inr x → ∃ y, values0 (column g P df) = inr y.
Proof.
  unfold column. destruct (select P df); simpl; [done|]. by eexists.
Qed.

(** [generate_text_report] can raise in its first section only: either it
    stops there, having written execution-time lines and nothing else, or
    it writes all four sections, each listing every method once, in the
    order the methods first appear in the file. *)
Theorem text_report_sections (df : frame drow) :
  let '(out, r) := generate_text_report df in
  (r = Some IndexError ∧
   ∀ e, e ∈ out → ∃ t1 tn imp, e = TimeLine (entry_method e) t1 tn imp) ∨
  (r = None ∧
   entry_method <$> out = methods df ++ methods df ++ methods df ++ methods df ∧
   ∃ o1 o2 o3 o4, out = o1 ++ o2 ++ o3 ++ o4 ∧
     Forall (λ e, ∃ t1 tn imp, e = TimeLine (entry_method e) t1 tn imp) o1 ∧
     Forall (λ e, ∃ s v, e = SpeedupLine (entry_method e) s v) o2 ∧
     Forall (λ e, ∃ x, e = EfficiencyLine (entry_method e) x) o3 ∧
     Forall (λ e, ∃ x, e = GflopsLine (entry_method e) x) o4).
Proof.
  unfold generate_text_report.
  destruct (Py.max ((λ ir, MatrixSize ir.2) <$> df)) as [largest|] eqn:Hl.
  2:{ apply max_None, fmap_nil_inv in Hl. subst df. right.
      split_and!; [done..|]. by exists [], [], [], []. }
  destruct (Py.max ((λ ir, Threads ir.2) <$> df)) as [mt|] eqn:Hmt.
  2:{ apply max_None, fmap_nil_inv in Hmt. subst df. done. }
  set (subset := select (λ r, MatrixSize r = largest) df).
  set (ms := methods df).
  assert (∀ m ln, time_line subset mt m = inr ln →
            ∃ t1 tn imp, ln = TimeLine (entry_method ln) t1 tn imp) as Htl.
  { intros m ln. unfold time_line. repeat case_match; try done.
    intros [= <-]. simpl. eauto. }
  destruct (write_each_cases (time_line subset mt) ms) as [(m & Hm & Hraise)|Hok].
  - pose proof (write_each_raises _ _ m _ Hm Hraise) as Hr.
    pose proof (write_each_lines (time_line subset mt) ms) as Hlines.
    destruct (write_each (time_line subset mt) ms) as [out1 r1]. simpl in *.
    subst r1. unfold and_then. simpl. left. split; [done|].
    intros e He. rewrite Forall_forall in Hlines.
    destruct (Hlines e He) as (m' & _ & Hm'). by eapply Htl.
  - assert (∀ m (f : drow → float), m ∈ ms → ∃ y, at_max subset mt f m = inr y)
      as Hmax.
    { intros m f Hm. destruct (Hok m Hm) as [ln Hln]. unfold time_line in Hln.
      destruct (values0 (column TimeSeconds (λ r, Method r = m ∧ Threads r = 1) subset));
        [done|].
      destruct (values0 (column TimeSeconds (λ r, Method r = m ∧ Threads r = mt) subset))
        as [|tn] eqn:Htn; [done|].
      by apply (values0_column TimeSeconds f) in Htn. }
    destruct (write_each_methods (time_line subset mt) ms) as (o1 & H1 & M1).
    { intros m Hm. destruct (Hok m Hm) as [ln Hln]. exists ln. split; [done|].
      by eapply time_line_method. }
    destruct (write_each_methods (speedup_line subset mt) ms) as (o2 & H2 & M2).
    { intros m Hm. unfold speedup_line. destruct (Hmax m Speedup Hm) as [y ->].
      by eexists. }
    destruct (write_each_methods (efficiency_line subset mt) ms) as (o3 & H3 & M3).
    { intros m Hm. unfold efficiency_line. destruct (Hmax m Efficiency Hm) as [y ->].
      by eexists. }
    destruct (write_each_methods (gflops_line subset mt) ms) as (o4 & H4 & M4).
    { intros m Hm. unfold gflops_line. destruct (Hmax m GFLOPS Hm) as [y ->].
      by eexists. }
    pose proof (write_each_lines (time_line subset mt) ms) as L1.
    pose proof (write_each_lines (speedup_line subset mt) ms) as L2.
    pose proof (write_each_lines (efficiency_line subset mt) ms) as L3.
    pose proof (write_each_lines (gflops_line subset mt) ms) as L4.
    rewrite H1 in L1. rewrite H2 in L2. rewrite H3 in L3. rewrite H4 in L4.
    rewrite H1, H2, H3, H4. unfold and_then. simpl in *. right.
    split_and!; [done| |].
    + by rewrite !fmap_app, M1, M2, M3, M4.
    + exists o1, o2, o3, o4. split_and!; [done| | | |].
      * eapply Forall_impl; [exact L1|]. intros e (m & _ & He). by eapply Htl.
      * eapply Forall_impl; [exact L2|]. intros e (m & _ & He).
        unfold speedup_line in He. destruct (at_max _ _ _ _); [done|].
        injection He as <-. simpl. eauto.
      * eapply Forall_impl; [exact L3|]. intros e (m & _ & He).
        unfold efficiency_line in He. destruct (at_max _ _ _ _); [done|].
        injection He as <-. simpl. eauto.
      * eapply Forall_impl; [exact L4|]. intros e (m & _ & He).
        unfold gflops_line in He. destruct (at_max _ _ _ _); [done|].
        injection He as <-. simpl. eauto.
Qed.

End text_report_shape.

(** ** [b/plot_best_time_hist.py] *)

Module PlotBestTimeHist.
Import Pandas PlotBestTime.

Definition color_map : gmap string string :=
  list_to_map [("optimized", "tab:blue"); ("unoptimized", "tab:orange")]%string.

Inductive exn := KeyError.

(** One saved figure: its size and, bar by bar, the pattern names, the
    heights and the colours. *)
Record bar_chart := BarChart {
  chart_N : Z;
  chart_names : list string;
  chart_times : list float;
  chart_colors : list string
}.

Section charts.
(** [sort_values("best_time_sec")]: a sort of one column, which pandas
    does not promise to be stable; the sort is a parameter.  The rows of
    the summary are used without their labels, which the script never
    reads. *)
Variable sort_by_time : list best_row → list best_row.

(** One turn of the loop; [None] is the [KeyError] of [color_map[v]]. *)
Definition draw_chart (df : list best_row) (n : Z) : option bar_chart :=
  let sub := sort_by_time (filter (λ r, o_N r = n) df) in
  colors ← mapM (λ r, color_map !! o_best_version r) sub;
  Some (BarChart n (o_pattern_name <$> sub) (o_best_time_sec <$> sub) colors).

(** The loop over [Ns]: the figures saved, and the exception that ended
    the run, if any. *)
Fixpoint draw_charts (df : list best_row) (ns : list Z)
  : list bar_chart * option exn :=
  match ns with
  | [] => ([], None)
  | n :: rest =>
      match draw_chart df n with
      | None => ([], Some KeyError)
      | Some c => let '(cs, r) := draw_charts df rest in (c :: cs, r)
      end
  end.

Definition plot_best_time_hist (df : list best_row)
  : list bar_chart * option exn :=
  draw_charts df (PlotResultsDFigures.sorted_unique (o_N <$> df)).
End charts.

End PlotBestTimeHist.

Section best_time_hist_claims.
Import Pandas PlotBestTime PlotBestTimeHist Samples.

Definition time_le (r1 r2 : best_row) : Prop :=
  float_le (o_best_time_sec r1) (o_best_time_sec r2).

Global Instance time_le_dec : RelDecision time_le.
Proof. intros r1 r2. unfold time_le. apply _. Defined.

Global Instance time_le_total : Total time_le.
Proof. intros r1 r2. apply float_le_total. Qed.

Definition stable_sort_by_time (df : list best_row) : list best_row :=
  Py.sorted time_le df.

Lemma stable_sort_by_time_perm df : stable_sort_by_time df ≡ₚ df.
Proof. apply sorted_Permutation. Qed.

Lemma stable_sort_by_time_sorted df :
  Sorted float_le (o_best_time_sec <$> stable_sort_by_time df).
Proof.
  apply (Sorted_fmap _ time_le); [done|]. apply Sorted_sorted, _.
Qed.

Lemma color_map_Some v :
  is_Some (color_map !! v) ↔ v = "optimized"%string ∨ v = "unoptimized"%string.
Proof.
  unfold color_map. simpl.
  destruct (decide (v = "optimized"%string)) as [->|?]; [by split; [left|eexists]|].
  destruct (decide (v = "unoptimized"%string)) as [->|?]; [by split; [right|eexists]|].
  rewrite !lookup_insert_ne, lookup_empty by done. split; [by intros []|naive_solver].
Qed.

(** The version written by [b/plot_best_time.py] is one of its two
    labels. *)
Lemma best_times_versions df_base df_opt out o :
  best_times df_base df_opt = Some out → o ∈ out →
  o_best_version o = "optimized"%string ∨ o_best_version o = "unoptimized"%string.
Proof.
  intros (rows & Hrows & _ & ->)%best_times_rows Hin%elem_of_sorted.
  destruct (extract_elem_of _ _ _ Hrows Hin) as (k & _ & Hbest).
  unfold best_of_group in Hbest.
  destruct (idxmin _) as [i|]; simpl in Hbest; [|done].
  destruct (loc _ i) as [r|] eqn:Hloc; simpl in Hbest; [|done].
  injection Hbest as <-. simpl.
  apply loc_elem_of, elem_of_group in Hloc as [Hin' _].
  apply combined_rows in Hin' as [_ [(c & _ & Hr)|(c & _ & Hr)]];
    simpl in Hr; rewrite Hr; simpl; auto.
Qed.

Section with_sort.
Variable sort : list best_row → list best_row.
Hypothesis sort_perm : ∀ df, sort df ≡ₚ df.
Hypothesis sort_sorted : ∀ df, Sorted float_le (o_best_time_sec <$> sort df).

Lemma draw_chart_None df n :
  draw_chart sort df n = None ↔
  ∃ r, r ∈ df ∧ o_N r = n ∧ color_map !! o_best_version r = None.
Proof.
  unfold draw_chart.
  destruct (mapM _ _) as [colors|] eqn:Hm; simpl.
  - split; [done|]. intros (r & Hr & Hn & Hc).
    apply mapM_Some in Hm.
    assert (r ∈ sort (filter (λ r, o_N r = n) df)) as Hin.
    { rewrite sort_perm. by apply list_elem_of_filter. }
    apply list_elem_of_lookup in Hin as [i Hi].
    destruct (Forall2_lookup_l _ _ _ _ _ Hm Hi) as (c & _ & Hcol). congruence.
  - split; [|done]. intros _.
    apply mapM_None, Exists_exists in Hm as (r & Hin & Hc).
    rewrite sort_perm in Hin. apply list_elem_of_filter in Hin as [? ?].
    by exists r.
Qed.

Lemma draw_chart_Some df n c :
  draw_chart sort df n = Some c →
  chart_N c = n ∧
  ∃ sub, sub ≡ₚ filter (λ r, o_N r = n) df ∧
    chart_names c = o_pattern_name <$> sub ∧
    chart_times c = o_best_time_sec <$> sub ∧
    Sorted float_le (chart_times c) ∧
    Forall2 (λ r col, color_map !! o_best_version r = Some col) sub (chart_colors c).
Proof.
  unfold draw_chart.
  destruct (mapM _ _) as [colors|] eqn:Hm; simpl; [|done]. intros [= <-]. simpl.
  split; [done|]. exists (sort (filter (λ r, o_N r = n) df)).
  split_and!; [apply sort_perm|done|done|apply sort_sorted|by apply mapM_Some].
Qed.

Lemma draw_charts_spec df ns :
  (draw_charts sort df ns).2 = Some KeyError ↔
  ∃ r, r ∈ df ∧ o_N r ∈ ns ∧ color_map !! o_best_version r = None.
Proof.
  induction ns as [|n ns IH]; simpl.
  - split; [done|]. intros (r & _ & Hn & _). by apply elem_of_nil in Hn.
  - destruct (draw_chart sort df n) as [c|] eqn:Hc.
    + destruct (draw_charts sort df ns) as [cs r]. simpl in *. rewrite IH.
      assert (¬ ∃ r, r ∈ df ∧ o_N r = n ∧ color_map !! o_best_version r = None)
        as Hno.
      { rewrite <-draw_chart_None. congruence. }
      split.
      * intros (r' & ? & ? & ?). exists r'. set_solver.
      * intros (r' & ? & [Heq|?]%elem_of_cons & ?); [destruct Hno|]; eauto.
    + simpl. split; [|done]. intros _.
      apply draw_chart_None in Hc as (r & ? & ? & ?). exists r. set_solver.
Qed.

Lemma draw_charts_ok df ns cs :
  draw_charts sort df ns = (cs, None) →
  Forall2 (λ n c, draw_chart sort df n = Some c) ns cs.
Proof.
  revert cs. induction ns as [|n ns IH]; intros cs; simpl.
  - intros [= <-]. constructor.
  - destruct (draw_chart sort df n) as [c|] eqn:Hc; [|done].
    destruct (draw_charts sort df ns) as [cs' r]. intros [= <- ->].
    constructor; [done|]. by apply IH.
Qed.

(** [b/plot_best_time_hist.py] raises [KeyError] exactly when the summary
    holds a version other than the two of [color_map]; this never happens
    with the table written by [b/plot_best_time.py].  Without exception it
    saves one figure per size of the summary, in ascending order; the bars
    of a figure are the rows of its size, by ascending time, each with the
    colour of its version. *)
Theorem best_time_hist_charts (df : list best_row) :
  ((plot_best_time_hist sort df).2 = Some KeyError ↔
   ∃ r, r ∈ df ∧ o_best_version r ≠ "optimized"%string ∧
        o_best_version r ≠ "unoptimized"%string) ∧
  (∀ df_base df_opt, best_times df_base df_opt = Some df →
     (plot_best_time_hist sort df).2 = None) ∧
  (∀ charts, plot_best_time_hist sort df = (charts, None) →
     chart_N <$> charts = PlotResultsDFigures.sorted_unique (o_N <$> df) ∧
     ∀ c, c ∈ charts →
       ∃ sub, sub ≡ₚ filter (λ r, o_N r = chart_N c) df ∧
         chart_names c = o_pattern_name <$> sub ∧
         chart_times c = o_best_time_sec <$> sub ∧
         Sorted float_le (chart_times c) ∧
         Forall2 (λ r col, color_map !! o_best_version r = Some col)
                 sub (chart_colors c)).
Proof.
  assert ((plot_best_time_hist sort df).2 = Some KeyError ↔
          ∃ r, r ∈ df ∧ o_best_version r ≠ "optimized"%string ∧
               o_best_version r ≠ "unoptimized"%string) as Hraise.
  { unfold plot_best_time_hist. rewrite draw_charts_spec. split.
    - intros (r & Hr & _ & Hc). exists r. split; [done|].
      apply eq_None_not_Some in Hc. rewrite color_map_Some in Hc. naive_solver.
    - intros (r & Hr & H1 & H2). exists r. split_and!; [done| |].
      + rewrite sorted_unique_eq. apply elem_of_sorted_set_Z.
        apply list_elem_of_fmap. by exists r.
      + apply eq_None_not_Some. rewrite color_map_Some. naive_solver. }
  split_and!; [done| |].
  - intros df_base df_opt Hbest.
    destruct (plot_best_time_hist sort df) as [cs [[]|]] eqn:Hp; [|done].
    simpl in Hraise. destruct (proj1 Hraise eq_refl) as (r & Hr & H1 & H2).
    destruct (best_times_versions _ _ _ r Hbest Hr); congruence.
  - intros charts Hp. unfold plot_best_time_hist in Hp.
    apply draw_charts_ok in Hp. split.
    + induction Hp as [|n c ns cs Hc _ IH]; [done|].
      rewrite fmap_cons, IH. f_equal. by apply draw_chart_Some in Hc as [? _].
    + intros c Hc. apply list_elem_of_lookup in Hc as [i Hi].
      destruct (Forall2_lookup_r _ _ _ _ _ Hp Hi) as (n & _ & Hn).
      apply draw_chart_Some in Hn as [<- Hsub]. done.
Qed.

End with_sort.

Definition summary_sample : list best_row :=
  [BestRow 256 "col_major" f1_0 "optimized";
   BestRow 256 "unroll4" f0_5 "unoptimized";
   BestRow 512 "col_major" f2_0 "optimized"]%string.

Lemma best_time_hist_charts_witness :
  (∀ df, stable_sort_by_time df ≡ₚ df) ∧
  (∀ df, Sorted float_le (o_best_time_sec <$> stable_sort_by_time df)) ∧
  ((plot_best_time_hist stable_sort_by_time summary_sample).2 = Some KeyError ↔
   ∃ r, r ∈ summary_sample ∧ o_best_version r ≠ "optimized"%string ∧
        o_best_version r ≠ "unoptimized"%string).
Proof.
  split_and!; [apply stable_sort_by_time_perm|apply stable_sort_by_time_sorted|].
  exact (proj1 (best_time_hist_charts stable_sort_by_time stable_sort_by_time_perm
                  stable_sort_by_time_sorted summary_sample)).
Defined.

End best_time_hist_claims.

(** ** [b/plot_results.py] *)

Module PlotResultsB.
Import Pandas.

(** The columns of [results_optimized.csv] the script reads, and the name
    [.map(pattern_names)] adds ([None]: missing). *)
Record opt_row := OptRow {
  r_N : Z;
  r_threads : Z;
  r_pattern : Z;
  r_sec : float
}.

Definition pattern_name (r : opt_row) : option string :=
  PlotBestTime.pattern_names !! r_pattern r.

Record line := Line {
  line_label : string;
  line_xs : list Z;
  line_ys : list float
}.

Section figures.
(** [g.sort_values("N")]; as before the sort is a parameter.  The rows
    are used without their labels, which the script never reads. *)
Variable sort_by_N : list opt_row → list opt_row.

(** The keys of [sub.groupby("pattern_name")]: the names present, rows
    without name dropped, in ascending order. *)
Definition names_of (sub : list opt_row) : list string :=
  Py.sorted_set_str (omap pattern_name sub).

Definition plot_group (sub : list opt_row) (pattern : string) : line :=
  let g := sort_by_N (filter (λ r, pattern_name r = Some pattern) sub) in
  Line pattern (r_N <$> g) (r_sec <$> g).

(** One saved figure: its thread count and its lines. *)
Definition figure (df : list opt_row) (threads : Z) : Z * list line :=
  let sub := filter (λ r, r_threads r = threads) df in
  (threads, plot_group sub <$> names_of sub).

Definition plot_results (df : list opt_row) : list (Z * list line) :=
  figure df <$> PlotResultsDFigures.sorted_unique (r_threads <$> df).
End figures.

End PlotResultsB.

Section plot_results_b_claims.
Import Pandas PlotResultsB Samples.

Definition N_le (a b : opt_row) : Prop := r_N a ≤ r_N b.

Global Instance N_le_dec : RelDecision N_le.
Proof. intros a b. unfold N_le. apply _. Defined.

Global Instance N_le_total : Total N_le.
Proof. intros a b. unfold N_le. lia. Qed.

Definition stable_sort_by_N (df : list opt_row) : list opt_row := Py.sorted N_le df.

Lemma stable_sort_by_N_perm df : stable_sort_by_N df ≡ₚ df.
Proof. apply sorted_Permutation. Qed.

Lemma stable_sort_by_N_sorted df : Sorted Z.le (r_N <$> stable_sort_by_N df).
Proof. apply (Sorted_fmap _ N_le); [done|]. apply Sorted_sorted, _. Qed.

Lemma elem_of_names_of sub p :
  p ∈ names_of sub ↔ ∃ r, r ∈ sub ∧ pattern_name r = Some p.
Proof.
  unfold names_of. rewrite elem_of_sorted_set_str. apply list_elem_of_omap.
Qed.

Section with_sort.
Variable sort : list opt_row → list opt_row.
Hypothesis sort_perm : ∀ df, sort df ≡ₚ df.
Hypothesis sort_sorted : ∀ df, Sorted Z.le (r_N <$> sort df).

(** [b/plot_results.py] saves one figure per thread count of the file, in
    ascending order, also for a thread count whose records all carry an
    unknown pattern code (a figure without line).  A figure has one line
    per pattern name that occurs at its thread count, in lexicographic
    order; records with an unknown code are on no line.  Along a line the
    sizes ascend, and its points are the (N, sec) of all records of its
    pattern at the figure's thread count. *)
Theorem optimized_figures (df : list opt_row) :
  (plot_results sort df).*1 = PlotResultsDFigures.sorted_unique (r_threads <$> df) ∧
  Sorted Z.le (plot_results sort df).*1 ∧ NoDup (plot_results sort df).*1 ∧
  (∀ t, t ∈ (plot_results sort df).*1 ↔ ∃ r, r ∈ df ∧ r_threads r = t) ∧
  ∀ t lines, (t, lines) ∈ plot_results sort df →
    Sorted String.le (line_label <$> lines) ∧ NoDup (line_label <$> lines) ∧
    (∀ p, p ∈ line_label <$> lines ↔
          ∃ r, r ∈ df ∧ r_threads r = t ∧
               PlotBestTime.pattern_names !! r_pattern r = Some p) ∧
    ∀ ln, ln ∈ lines →
      Sorted Z.le (line_xs ln) ∧ length (line_xs ln) = length (line_ys ln) ∧
      zip (line_xs ln) (line_ys ln) ≡ₚ
        (λ r, (r_N r, r_sec r)) <$>
          filter (λ r, r_threads r = t ∧
                       PlotBestTime.pattern_names !! r_pattern r = Some (line_label ln))
                 df.
Proof.
  assert ((plot_results sort df).*1
          = PlotResultsDFigures.sorted_unique (r_threads <$> df)) as Hfst.
  { unfold plot_results. rewrite <-list_fmap_compose. apply list_fmap_id. }
  rewrite Hfst, sorted_unique_eq. split_and!.
  - done.
  - apply Sorted_sorted_set_Z.
  - apply NoDup_sorted_set_Z.
  - intros t. rewrite elem_of_sorted_set_Z, list_elem_of_fmap. naive_solver.
  - intros t lines (t' & [= -> ->] & _)%list_elem_of_fmap.
    set (sub := filter (λ r, r_threads r = t') df).
    assert (line_label <$> (plot_group sort sub <$> names_of sub) = names_of sub)
      as Hlab.
    { rewrite <-list_fmap_compose. apply list_fmap_id. }
    rewrite Hlab. split_and!.
    + apply Sorted_sorted_set_str.
    + apply NoDup_sorted_set_str.
    + intros p. rewrite elem_of_names_of. unfold sub, pattern_name.
      setoid_rewrite list_elem_of_filter. naive_solver.
    + intros ln (p & -> & _)%list_elem_of_fmap. simpl. split_and!.
      * apply sort_sorted.
      * by rewrite !length_fmap.
      * rewrite zip_fmap_same, sort_perm. unfold sub.
        rewrite list_filter_filter.
        erewrite list_filter_iff; [reflexivity|].
        unfold pattern_name. naive_solver.
Qed.

End with_sort.

Definition optimized_sample : list opt_row :=
  [OptRow 256 1 0 f1_0; OptRow 512 1 0 f2_0; OptRow 256 2 7 f0_5].

Lemma optimized_figures_witness :
  (∀ df, stable_sort_by_N df ≡ₚ df) ∧
  (∀ df, Sorted Z.le (r_N <$> stable_sort_by_N df)) ∧
  NoDup (plot_results stable_sort_by_N optimized_sample).*1.
Proof.
  split_and!; [apply stable_sort_by_N_perm|apply stable_sort_by_N_sorted|].
  exact (proj1 (proj2 (proj2 (optimized_figures stable_sort_by_N
           stable_sort_by_N_perm stable_sort_by_N_sorted optimized_sample)))).
Defined.

End plot_results_b_claims.
